(** * Vehicle damage detection: batch orchestration and result aggregation

    A shallow embedding of the non-UI logic of the demo panel
    ([src/components/DemoSection.tsx]) and of the edge function in front of
    the AI gateway ([supabase/functions/analyze-damage/index.ts]), followed
    by the properties of the aggregation pipeline.

    Conventions of the embedding.
    - JSON numbers received from the boundary are finite, and the figures the
      pipeline handles (confidence scores, rupee amounts, positions) are whole,
      so they are values of [Z].  The results of [Math.max] and [Math.round]
      range over [number], which adds the two special values these calls
      return on an empty array.
    - Strings are [string]; arrays are [list]; a TypeScript interface is a
      record in a module of the same name, so that fields keep their names.
      Values have the shape their interface declares, so [?.] on a required
      field never short-circuits and [xs || []] is [xs].
    - React state, console output and toasts are threaded explicitly through
      a record; calls to the Analysis Client are answered by an oracle. *)

From Stdlib Require Import ZArith String Ascii Bool Lia QArith Permutation List.
From Stdlib Require Import DecimalString Qround Lqa Sorted.
Import ListNotations.

Local Open Scope string_scope.
Local Open Scope Z_scope.

(** ** JavaScript built-ins used by the sources *)

Module JS.

(** Values of type [number] produced by [Math.max] and [Math.round]. *)
Inductive number : Type :=
| Num (z : Z)
| NegInfinity
| NaN.

(** [Math.max(...xs)]: the largest argument, [-Infinity] without arguments. *)
Definition Math_max (xs : list Z) : number :=
  match xs with
  | [] => NegInfinity
  | x :: rest => Num (fold_left Z.max rest x)
  end.

(** [Math.round(s / n)] for a whole sum [s] and an array length [n]:
    [Math.round] is [floor (x + 1/2)], and [0 / 0] is [NaN] (the sum of an
    empty array is [0]). *)
Definition Math_round_div (s : Z) (n : nat) : number :=
  match n with
  | O => NaN
  | S _ => Num ((2 * s + Z.of_nat n) / (2 * Z.of_nat n))
  end.

(** [x || 0] on a number: [0] is the only falsy whole number. *)
Definition or_zero (x : Z) : Z := if x =? 0 then 0 else x.

(** Truthiness of a string: every string but the empty one. *)
Definition truthy (s : string) : bool := negb (s =? "")%string.

(** [s || d] on strings. *)
Definition or_string (s d : string) : string := if truthy s then s else d.

(** [[...new Set(xs)]]: the elements of [xs] in order of first insertion. *)
Fixpoint Set_insert_all (seen xs : list string) : list string :=
  match xs with
  | [] => []
  | x :: rest =>
      if in_dec string_dec x seen then Set_insert_all seen rest
      else x :: Set_insert_all (x :: seen) rest
  end.

Definition Set_spread (xs : list string) : list string := Set_insert_all [] xs.

(** [xs.join(sep)]. *)
Definition join (sep : string) (xs : list string) : string := String.concat sep xs.

(** [`${n}`] for an array length. *)
Definition show_nat (n : nat) : string := NilEmpty.string_of_uint (Nat.to_uint n).

(** [xs.flatMap(f)]; also the shape of a [forEach] that pushes, for each
    element, a run of items onto one array. *)
Definition flatMap {A B : Type} (f : A -> list B) (xs : list A) : list B :=
  flat_map f xs.

End JS.

(** ** Data contracts (interfaces of DemoSection.tsx, lines 10-55) *)

Inductive DamageSeverity : Type := DMinor | DModerate | DSevere.

Inductive Severity : Type := None_ | Minor | Moderate | Severe.

Definition Severity_to_string (s : Severity) : string :=
  match s with
  | None_ => "None"
  | Minor => "Minor"
  | Moderate => "Moderate"
  | Severe => "Severe"
  end.

Module DamageItem.
Record t : Type := mk
  { type : string;
    location : string;
    severity : DamageSeverity;
    description : string }.
End DamageItem.

Module RepairCost.
(** [{ min: number; max: number; currency: string }], over the
    representation [N] of the two numbers. *)
Record t (N : Type) : Type := mk
  { min : N;
    max : N;
    currency : string }.
Arguments mk {N} _ _ _.
Arguments min {N} _.
Arguments max {N} _.
Arguments currency {N} _.
End RepairCost.

Module AnalysisResult.
Record t : Type := mk
  { hasVehicle : bool;
    hasDamage : bool;
    overallSeverity : Severity;
    confidenceScore : Z;
    damages : list DamageItem.t;
    affectedAreas : list string;
    estimatedRepairCost : RepairCost.t Z;
    recommendations : list string;
    summary : string;
    annotatedImage : option string }.
End AnalysisResult.

Module FrameAnalysisResult.
(** [interface FrameAnalysisResult extends AnalysisResult]. *)
Record t : Type := mk
  { base : AnalysisResult.t;
    frameIndex : Z;
    frameImage : string }.
End FrameAnalysisResult.

Coercion FrameAnalysisResult.base : FrameAnalysisResult.t >-> AnalysisResult.t.

Module TaggedDamage.
(** [DamageItem & { frameIndex: number }]. *)
Record t : Type := mk
  { item : DamageItem.t;
    frameIndex : Z }.
End TaggedDamage.

Coercion TaggedDamage.item : TaggedDamage.t >-> DamageItem.t.

Module CombinedAnalysisResult.
Record t : Type := mk
  { totalFramesAnalyzed : nat;
    framesWithDamage : nat;
    overallSeverity : Severity;
    averageConfidence : JS.number;
    allDamages : list TaggedDamage.t;
    uniqueDamageTypes : list string;
    affectedAreas : list string;
    estimatedRepairCost : RepairCost.t JS.number;
    recommendations : list string;
    summary : string;
    frameResults : list FrameAnalysisResult.t }.
End CombinedAnalysisResult.

(** ** The result aggregators (DemoSection.tsx, lines 308-367 and 435-494) *)

(** [const severityOrder = { "None": 0, "Minor": 1, "Moderate": 2, "Severe": 3 }]. *)
Definition severityOrder (s : Severity) : Z :=
  match s with
  | None_ => 0
  | Minor => 1
  | Moderate => 2
  | Severe => 3
  end.

Definition combineImageResults (imageResults : list FrameAnalysisResult.t)
  : CombinedAnalysisResult.t :=
  let imagesWithDamage :=
    length (filter (fun f : FrameAnalysisResult.t => AnalysisResult.hasDamage f) imageResults) in
  let avgConfidence :=
    JS.Math_round_div
      (fold_left (fun sum (f : FrameAnalysisResult.t) => sum + AnalysisResult.confidenceScore f)
                 imageResults 0)
      (length imageResults) in
  let allDamages :=
    JS.flatMap
      (fun image : FrameAnalysisResult.t =>
         map (fun damage => TaggedDamage.mk damage (FrameAnalysisResult.frameIndex image))
             (AnalysisResult.damages image))
      imageResults in
  let uniqueDamageTypes :=
    JS.Set_spread (map (fun d : TaggedDamage.t => DamageItem.type d) allDamages) in
  let affectedAreas :=
    JS.Set_spread
      (JS.flatMap (fun f : FrameAnalysisResult.t => AnalysisResult.affectedAreas f) imageResults) in
  let overallSeverity :=
    fold_left
      (fun max (image : FrameAnalysisResult.t) =>
         if severityOrder (AnalysisResult.overallSeverity image) >? severityOrder max
         then AnalysisResult.overallSeverity image else max)
      imageResults None_ in
  let minCost :=
    JS.Math_max
      (map (fun f : FrameAnalysisResult.t =>
              JS.or_zero (RepairCost.min (AnalysisResult.estimatedRepairCost f)))
           imageResults) in
  let maxCost :=
    JS.Math_max
      (map (fun f : FrameAnalysisResult.t =>
              JS.or_zero (RepairCost.max (AnalysisResult.estimatedRepairCost f)))
           imageResults) in
  let currency :=
    match find (fun f : FrameAnalysisResult.t =>
                  JS.truthy (RepairCost.currency (AnalysisResult.estimatedRepairCost f)))
               imageResults with
    | Some f => JS.or_string (RepairCost.currency (AnalysisResult.estimatedRepairCost f)) "INR"
    | None => "INR"
    end in
  let recommendations :=
    JS.Set_spread
      (JS.flatMap (fun f : FrameAnalysisResult.t => AnalysisResult.recommendations f) imageResults) in
  let summary :=
    ("Comprehensive analysis of " ++ JS.show_nat (length imageResults)
       ++ " images reveals " ++ JS.show_nat imagesWithDamage
       ++ " image(s) showing vehicle damage. "
       ++ "A total of " ++ JS.show_nat (length allDamages)
       ++ " damage instances were detected across "
       ++ JS.show_nat (length uniqueDamageTypes) ++ " damage type(s): "
       ++ JS.join ", " uniqueDamageTypes ++ ". "
       ++ "Affected areas include: " ++ JS.join ", " affectedAreas
       ++ ". Overall severity is assessed as " ++ Severity_to_string overallSeverity ++ ".")%string in
  {| CombinedAnalysisResult.totalFramesAnalyzed := length imageResults;
     CombinedAnalysisResult.framesWithDamage := imagesWithDamage;
     CombinedAnalysisResult.overallSeverity := overallSeverity;
     CombinedAnalysisResult.averageConfidence := avgConfidence;
     CombinedAnalysisResult.allDamages := allDamages;
     CombinedAnalysisResult.uniqueDamageTypes := uniqueDamageTypes;
     CombinedAnalysisResult.affectedAreas := affectedAreas;
     CombinedAnalysisResult.estimatedRepairCost := RepairCost.mk minCost maxCost currency;
     CombinedAnalysisResult.recommendations := recommendations;
     CombinedAnalysisResult.summary := summary;
     CombinedAnalysisResult.frameResults := imageResults |}.

Definition combineFrameResults (frameResults : list FrameAnalysisResult.t)
  : CombinedAnalysisResult.t :=
  let framesWithDamage :=
    length (filter (fun f : FrameAnalysisResult.t => AnalysisResult.hasDamage f) frameResults) in
  let avgConfidence :=
    JS.Math_round_div
      (fold_left (fun sum (f : FrameAnalysisResult.t) => sum + AnalysisResult.confidenceScore f)
                 frameResults 0)
      (length frameResults) in
  let allDamages :=
    JS.flatMap
      (fun frame : FrameAnalysisResult.t =>
         map (fun damage => TaggedDamage.mk damage (FrameAnalysisResult.frameIndex frame))
             (AnalysisResult.damages frame))
      frameResults in
  let uniqueDamageTypes :=
    JS.Set_spread (map (fun d : TaggedDamage.t => DamageItem.type d) allDamages) in
  let affectedAreas :=
    JS.Set_spread
      (JS.flatMap (fun f : FrameAnalysisResult.t => AnalysisResult.affectedAreas f) frameResults) in
  let overallSeverity :=
    fold_left
      (fun max (frame : FrameAnalysisResult.t) =>
         if severityOrder (AnalysisResult.overallSeverity frame) >? severityOrder max
         then AnalysisResult.overallSeverity frame else max)
      frameResults None_ in
  let minCost :=
    JS.Math_max
      (map (fun f : FrameAnalysisResult.t =>
              JS.or_zero (RepairCost.min (AnalysisResult.estimatedRepairCost f)))
           frameResults) in
  let maxCost :=
    JS.Math_max
      (map (fun f : FrameAnalysisResult.t =>
              JS.or_zero (RepairCost.max (AnalysisResult.estimatedRepairCost f)))
           frameResults) in
  let currency :=
    match find (fun f : FrameAnalysisResult.t =>
                  JS.truthy (RepairCost.currency (AnalysisResult.estimatedRepairCost f)))
               frameResults with
    | Some f => JS.or_string (RepairCost.currency (AnalysisResult.estimatedRepairCost f)) "INR"
    | None => "INR"
    end in
  let recommendations :=
    JS.Set_spread
      (JS.flatMap (fun f : FrameAnalysisResult.t => AnalysisResult.recommendations f) frameResults) in
  let summary :=
    ("Comprehensive analysis of " ++ JS.show_nat (length frameResults)
       ++ " video frames reveals " ++ JS.show_nat framesWithDamage
       ++ " frame(s) showing vehicle damage. "
       ++ "A total of " ++ JS.show_nat (length allDamages)
       ++ " damage instances were detected across "
       ++ JS.show_nat (length uniqueDamageTypes) ++ " damage type(s): "
       ++ JS.join ", " uniqueDamageTypes ++ ". "
       ++ "Affected areas include: " ++ JS.join ", " affectedAreas
       ++ ". Overall severity is assessed as " ++ Severity_to_string overallSeverity ++ ".")%string in
  {| CombinedAnalysisResult.totalFramesAnalyzed := length frameResults;
     CombinedAnalysisResult.framesWithDamage := framesWithDamage;
     CombinedAnalysisResult.overallSeverity := overallSeverity;
     CombinedAnalysisResult.averageConfidence := avgConfidence;
     CombinedAnalysisResult.allDamages := allDamages;
     CombinedAnalysisResult.uniqueDamageTypes := uniqueDamageTypes;
     CombinedAnalysisResult.affectedAreas := affectedAreas;
     CombinedAnalysisResult.estimatedRepairCost := RepairCost.mk minCost maxCost currency;
     CombinedAnalysisResult.recommendations := recommendations;
     CombinedAnalysisResult.summary := summary;
     CombinedAnalysisResult.frameResults := frameResults |}.

(** ** The edge function (supabase/functions/analyze-damage/index.ts) *)

Module EdgeFunction.

(** Outcome of [await req.json()] followed by the destructuring of
    [imageBase64] ([None] when the body has no such field). *)
Inductive RequestJson : Type :=
| JsonRejects (message : string)
| JsonValue (imageBase64 : option string).

Record Request : Type := mkRequest
  { method : string;
    json : RequestJson }.

(** Answer of the gateway to the analysis call (lines 101-149);
    [FetchRejects] also covers a body that [analysisResponse.json()]
    cannot read. *)
Inductive AnalysisReply : Type :=
| FetchRejects (message : string)
| NotOk (status : Z) (text : string)
| Ok (content : option string).
    (* [content] is [analysisData.choices?.[0]?.message?.content] *)

(** Answer of the gateway to the annotation call (lines 205-251). *)
Inductive EditReply : Type :=
| EditRejects
| EditNotOk
| EditOk (url : option string).
    (* [url] is [imageEditData.choices?.[0]?.message?.images?.[0]?.image_url?.url] *)

(** Everything outside the handler.  [JSON_parse] is the built-in: [None]
    stands for a thrown [SyntaxError], [Some r] for a parsed value of the
    shape the prompt prescribes.  A text that parses to a value of another
    shape ([null], an object without [damages]) is outside this embedding. *)
Record World : Type := mkWorld
  { LOVABLE_API_KEY : option string;
    JSON_parse : string -> option AnalysisResult.t;
    analysisReply : AnalysisReply;
    editReply : EditReply }.

Inductive Body : Type :=
| NoBody
| ErrorBody (error : string)
| ResultBody (result : AnalysisResult.t).

Record Response : Type := mkResponse
  { status : Z;
    body : Body }.

(** [\s] and [trim] on the ASCII range: tab, LF, VT, FF, CR and space. *)
Definition is_space (c : ascii) : bool :=
  let n := nat_of_ascii c in
  ((9 <=? n) && (n <=? 13) || (n =? 32))%nat.

Fixpoint trimStart (s : string) : string :=
  match s with
  | String c rest => if is_space c then trimStart rest else s
  | EmptyString => EmptyString
  end.

Fixpoint rev_string (s acc : string) : string :=
  match s with
  | EmptyString => acc
  | String c rest => rev_string rest (String c acc)
  end.

Definition trimEnd (s : string) : string :=
  rev_string (trimStart (rev_string s "")) "".

Definition trim (s : string) : string := trimEnd (trimStart s).

Definition after (n : nat) (s : string) : string :=
  String.substring n (String.length s - n) s.

Definition fence : string := "```".

(** [aiResponse.match(/```(?:json)?\s*([\s\S]*?)```/)], giving group 1.
    Neither [json] nor white space contains a back-tick, so the match
    starts at the first fence and succeeds exactly when another fence
    follows it; the greedy optional parts are then taken in full and the
    lazy group stops at the next fence. *)
Definition match_fence (s : string) : option string :=
  match String.index 0 fence s with
  | None => None
  | Some p =>
      let r := after (p + 3) s in
      let r := if String.prefix "json" r then after 4 r else r in
      let r := trimStart r in
      match String.index 0 fence r with
      | None => None
      | Some q => Some (String.substring 0 q r)
      end
  end.

(** Lines 164-174: the value substituted when parsing throws. *)
Definition fallbackResult : AnalysisResult.t :=
  {| AnalysisResult.hasVehicle := false;
     AnalysisResult.hasDamage := false;
     AnalysisResult.overallSeverity := None_;
     AnalysisResult.confidenceScore := 0;
     AnalysisResult.damages := [];
     AnalysisResult.affectedAreas := [];
     AnalysisResult.estimatedRepairCost := RepairCost.mk 0 0 "USD";
     AnalysisResult.recommendations :=
       ["Unable to analyze image. Please try with a clearer image."];
     AnalysisResult.summary := "Could not process the image. Please upload a clear image.";
     AnalysisResult.annotatedImage := None |}.

(** Lines 156-160: the text handed to [JSON.parse]. *)
Definition jsonStrOf (aiResponse : string) : string :=
  match match_fence aiResponse with
  | Some group => trim group
  | None => aiResponse
  end.

(** Lines 153-175.  With no [content] the call [aiResponse.match] throws a
    [TypeError] inside the same [try]. *)
Definition parseAnalysis (w : World) (aiResponse : option string) : AnalysisResult.t :=
  match aiResponse with
  | None => fallbackResult
  | Some text =>
      match JSON_parse w (jsonStrOf text) with
      | Some analysisResult => analysisResult
      | None => fallbackResult
      end
  end.

(** Lines 177-252: the annotated image, when damage was reported. *)
Definition annotate (w : World) (analysisResult : AnalysisResult.t) : option string :=
  if AnalysisResult.hasVehicle analysisResult
     && AnalysisResult.hasDamage analysisResult
     && (0 <? length (AnalysisResult.damages analysisResult))%nat
  then
    match editReply w with
    | EditOk (Some editedImageUrl) =>
        if JS.truthy editedImageUrl then Some editedImageUrl else None
    | _ => None
    end
  else None.

Definition withAnnotatedImage (r : AnalysisResult.t) (annotatedImage : option string)
  : AnalysisResult.t :=
  {| AnalysisResult.hasVehicle := AnalysisResult.hasVehicle r;
     AnalysisResult.hasDamage := AnalysisResult.hasDamage r;
     AnalysisResult.overallSeverity := AnalysisResult.overallSeverity r;
     AnalysisResult.confidenceScore := AnalysisResult.confidenceScore r;
     AnalysisResult.damages := AnalysisResult.damages r;
     AnalysisResult.affectedAreas := AnalysisResult.affectedAreas r;
     AnalysisResult.estimatedRepairCost := AnalysisResult.estimatedRepairCost r;
     AnalysisResult.recommendations := AnalysisResult.recommendations r;
     AnalysisResult.summary := AnalysisResult.summary r;
     AnalysisResult.annotatedImage := annotatedImage |}.

(** The handler passed to [serve]. *)
Definition handler (w : World) (req : Request) : Response :=
  if (method req =? "OPTIONS")%string then mkResponse 200 NoBody
  else
    match json req with
    | JsonRejects message => mkResponse 500 (ErrorBody message)
    | JsonValue imageBase64 =>
        match imageBase64 with
        | None => mkResponse 400 (ErrorBody "No image provided")
        | Some image =>
            if negb (JS.truthy image) then mkResponse 400 (ErrorBody "No image provided")
            else
              match LOVABLE_API_KEY w with
              | None => mkResponse 500 (ErrorBody "LOVABLE_API_KEY is not configured")
              | Some key =>
                  if negb (JS.truthy key)
                  then mkResponse 500 (ErrorBody "LOVABLE_API_KEY is not configured")
                  else
                    match analysisReply w with
                    | FetchRejects message => mkResponse 500 (ErrorBody message)
                    | NotOk st _ =>
                        if st =? 429 then
                          mkResponse 429 (ErrorBody "Rate limit exceeded. Please try again later.")
                        else if st =? 402 then
                          mkResponse 402 (ErrorBody "AI credits exhausted. Please add more credits.")
                        else
                          mkResponse 500
                            (ErrorBody ("AI Gateway error: " ++ JS.show_nat (Z.to_nat st)))
                    | Ok aiResponse =>
                        let analysisResult := parseAnalysis w aiResponse in
                        let annotatedImage := annotate w analysisResult in
                        mkResponse 200
                          (ResultBody (withAnnotatedImage analysisResult annotatedImage))
                    end
              end
        end
    end.

End EdgeFunction.

(** ** The batch orchestrators (DemoSection.tsx, lines 242-306 and 369-433) *)

Module Toast.
Record t : Type := mk
  { title : string;
    description : string;
    variant : option string }.
End Toast.

(** A value caught by [catch (error)]: [error instanceof Error] or not. *)
Inductive Thrown : Type :=
| ErrorValue (message : string)
| OtherValue.

(** The [data] of a resolved call: a body whose [error] field is truthy, or
    an analysis result of the declared shape.  [data] is untyped in the
    source; bodies of another shape are the subject of [RawOutcome] below. *)
Inductive Data : Type :=
| DataError (error : string)
| DataResult (result : AnalysisResult.t).

(** Outcome of [await supabase.functions.invoke('analyze-damage', ...)]:
    the promise rejects, or resolves to [{ data, error }]. *)
Inductive InvokeOutcome : Type :=
| Rejects (thrown : Thrown)
| Resolves (data : option Data) (error : option string).

(** The Analysis Client as an oracle: the outcome of the call made for the
    unit at position [i] with body [{ imageBase64 }]. *)
Definition Client : Type := nat -> string -> InvokeOutcome.

(** How a block of statements ends. *)
Inductive Completion (A : Type) : Type :=
| Normal (value : A)
| Throw (thrown : Thrown).
Arguments Normal {A} _.
Arguments Throw {A} _.

Module State.
(** The component state the orchestrators touch, and their effects:
    requests sent, [console.error] lines, toasts shown.  [aggregations] is
    a ghost counter of the calls to an aggregator. *)
Record t : Type := mk
  { uploadedImages : list string;
    videoFrames : list string;
    isAnalyzingAllFrames : bool;
    isAnalyzingAllImages : bool;
    analysisProgress : Q;
    currentAnalyzingFrame : Z;
    results : option AnalysisResult.t;
    combinedResults : option CombinedAnalysisResult.t;
    requests : list string;
    console : list string;
    toasts : list Toast.t;
    aggregations : nat }.
End State.

Definition setIsAnalyzingAllFrames (v : bool) (s : State.t) : State.t :=
  State.mk (State.uploadedImages s) (State.videoFrames s) v (State.isAnalyzingAllImages s)
    (State.analysisProgress s) (State.currentAnalyzingFrame s) (State.results s)
    (State.combinedResults s) (State.requests s) (State.console s) (State.toasts s)
    (State.aggregations s).

Definition setIsAnalyzingAllImages (v : bool) (s : State.t) : State.t :=
  State.mk (State.uploadedImages s) (State.videoFrames s) (State.isAnalyzingAllFrames s) v
    (State.analysisProgress s) (State.currentAnalyzingFrame s) (State.results s)
    (State.combinedResults s) (State.requests s) (State.console s) (State.toasts s)
    (State.aggregations s).

Definition setAnalysisProgress (v : Q) (s : State.t) : State.t :=
  State.mk (State.uploadedImages s) (State.videoFrames s) (State.isAnalyzingAllFrames s)
    (State.isAnalyzingAllImages s) v (State.currentAnalyzingFrame s) (State.results s)
    (State.combinedResults s) (State.requests s) (State.console s) (State.toasts s)
    (State.aggregations s).

Definition setCurrentAnalyzingFrame (v : Z) (s : State.t) : State.t :=
  State.mk (State.uploadedImages s) (State.videoFrames s) (State.isAnalyzingAllFrames s)
    (State.isAnalyzingAllImages s) (State.analysisProgress s) v (State.results s)
    (State.combinedResults s) (State.requests s) (State.console s) (State.toasts s)
    (State.aggregations s).

Definition setResults (v : option AnalysisResult.t) (s : State.t) : State.t :=
  State.mk (State.uploadedImages s) (State.videoFrames s) (State.isAnalyzingAllFrames s)
    (State.isAnalyzingAllImages s) (State.analysisProgress s) (State.currentAnalyzingFrame s) v
    (State.combinedResults s) (State.requests s) (State.console s) (State.toasts s)
    (State.aggregations s).

Definition setCombinedResults (v : option CombinedAnalysisResult.t) (s : State.t) : State.t :=
  State.mk (State.uploadedImages s) (State.videoFrames s) (State.isAnalyzingAllFrames s)
    (State.isAnalyzingAllImages s) (State.analysisProgress s) (State.currentAnalyzingFrame s)
    (State.results s) v (State.requests s) (State.console s) (State.toasts s)
    (State.aggregations s).

(** The request leaving through [supabase.functions.invoke]. *)
Definition send (imageBase64 : string) (s : State.t) : State.t :=
  State.mk (State.uploadedImages s) (State.videoFrames s) (State.isAnalyzingAllFrames s)
    (State.isAnalyzingAllImages s) (State.analysisProgress s) (State.currentAnalyzingFrame s)
    (State.results s) (State.combinedResults s) (State.requests s ++ [imageBase64])
    (State.console s) (State.toasts s) (State.aggregations s).

(** [console.error(label, error)]. *)
Definition console_error (label error : string) (s : State.t) : State.t :=
  State.mk (State.uploadedImages s) (State.videoFrames s) (State.isAnalyzingAllFrames s)
    (State.isAnalyzingAllImages s) (State.analysisProgress s) (State.currentAnalyzingFrame s)
    (State.results s) (State.combinedResults s) (State.requests s)
    (State.console s ++ [(label ++ " " ++ error)%string]) (State.toasts s)
    (State.aggregations s).

Definition toast (t : Toast.t) (s : State.t) : State.t :=
  State.mk (State.uploadedImages s) (State.videoFrames s) (State.isAnalyzingAllFrames s)
    (State.isAnalyzingAllImages s) (State.analysisProgress s) (State.currentAnalyzingFrame s)
    (State.results s) (State.combinedResults s) (State.requests s) (State.console s)
    (State.toasts s ++ [t]) (State.aggregations s).

(** Ghost step taken at each call of an aggregator. *)
Definition aggregate (s : State.t) : State.t :=
  State.mk (State.uploadedImages s) (State.videoFrames s) (State.isAnalyzingAllFrames s)
    (State.isAnalyzingAllImages s) (State.analysisProgress s) (State.currentAnalyzingFrame s)
    (State.results s) (State.combinedResults s) (State.requests s) (State.console s)
    (State.toasts s) (S (State.aggregations s)).

(** [`${thrown}`] as [console.error] prints it. *)
Definition Thrown_to_string (e : Thrown) : string :=
  match e with
  | ErrorValue message => ("Error: " ++ message)%string
  | OtherValue => "[object]"
  end.

(** [((i + 1) / total) * 100]. *)
Definition percentage (i total : nat) : Q :=
  ((inject_Z (Z.of_nat i + 1) / inject_Z (Z.of_nat total)) * 100)%Q.

(** Body of the [for] loop (lines 255-274 and 382-401), for the unit at
    position [i] of [units]; [noun] is "image" or "frame" in the log line.
    [acc] is the local array [imageResults] / [frameResults]. *)
Definition analyzeUnit (noun : string) (invoke : Client) (units : list string) (i : nat)
    (acc : list FrameAnalysisResult.t) (s : State.t)
  : Completion (list FrameAnalysisResult.t) * State.t :=
  let s := setCurrentAnalyzingFrame (Z.of_nat i + 1) s in
  let unit := nth i units "" in
  let s := send unit s in
  match invoke i unit with
  | Rejects thrown => (Throw thrown, s)
  | Resolves data error =>
      match error with
      | Some e =>
          (* [continue]: the rest of the body is skipped *)
          (Normal acc,
           console_error ("Error analyzing " ++ noun ++ " " ++ JS.show_nat (i + 1) ++ ":") e s)
      | None =>
          let acc :=
            match data with
            | Some (DataResult result) =>
                (acc ++ [FrameAnalysisResult.mk result (Z.of_nat i) unit])%list
            | _ => acc
            end in
          (Normal acc, setAnalysisProgress (percentage i (length units)) s)
      end
  end.

(** [for (let i = 0; i < units.length; i++)], over the positions still to
    visit. *)
Fixpoint analyzeLoop (noun : string) (invoke : Client) (units : list string)
    (positions : list nat) (acc : list FrameAnalysisResult.t) (s : State.t)
  : Completion (list FrameAnalysisResult.t) * State.t :=
  match positions with
  | [] => (Normal acc, s)
  | i :: rest =>
      match analyzeUnit noun invoke units i acc s with
      | (Normal acc', s') => analyzeLoop noun invoke units rest acc' s'
      | (Throw thrown, s') => (Throw thrown, s')
      end
  end.

Definition analyzeAllImages (invoke : Client) (s : State.t) : State.t :=
  let uploadedImages := State.uploadedImages s in
  if (length uploadedImages =? 0)%nat then s
  else
    let s := setIsAnalyzingAllImages true s in
    let s := setAnalysisProgress 0 s in
    let s := setCurrentAnalyzingFrame 0 s in
    let s := setCombinedResults None s in
    let s := setResults None s in
    let s :=
      match analyzeLoop "image" invoke uploadedImages (seq 0 (length uploadedImages)) [] s with
      | (Normal imageResults, s) =>
          if (length imageResults =? 0)%nat then
            toast {| Toast.title := "Analysis Failed";
                     Toast.description := "Could not analyze any images. Please try again.";
                     Toast.variant := Some "destructive" |} s
          else
            let combined := combineImageResults imageResults in
            let s := aggregate s in
            let s := setCombinedResults (Some combined) s in
            toast {| Toast.title := "Comprehensive Analysis Complete";
                     Toast.description :=
                       ("Analyzed " ++ JS.show_nat (length imageResults) ++ " images. Found "
                          ++ JS.show_nat (length (CombinedAnalysisResult.allDamages combined))
                          ++ " total damage instances.")%string;
                     Toast.variant := None |} s
      | (Throw error, s) =>
          let s := console_error "Analysis error:" (Thrown_to_string error) s in
          toast {| Toast.title := "Analysis Failed";
                   Toast.description :=
                     match error with
                     | ErrorValue message => message
                     | OtherValue => "Failed to analyze images. Please try again."
                     end;
                   Toast.variant := Some "destructive" |} s
      end in
    (* finally *)
    let s := setIsAnalyzingAllImages false s in
    let s := setAnalysisProgress 0 s in
    setCurrentAnalyzingFrame 0 s.

Definition analyzeAllFrames (invoke : Client) (s : State.t) : State.t :=
  let videoFrames := State.videoFrames s in
  if (length videoFrames =? 0)%nat then s
  else
    let s := setIsAnalyzingAllFrames true s in
    let s := setAnalysisProgress 0 s in
    let s := setCurrentAnalyzingFrame 0 s in
    let s := setCombinedResults None s in
    let s := setResults None s in
    let s :=
      match analyzeLoop "frame" invoke videoFrames (seq 0 (length videoFrames)) [] s with
      | (Normal frameResults, s) =>
          if (length frameResults =? 0)%nat then
            toast {| Toast.title := "Analysis Failed";
                     Toast.description := "Could not analyze any frames. Please try again.";
                     Toast.variant := Some "destructive" |} s
          else
            let combined := combineFrameResults frameResults in
            let s := aggregate s in
            let s := setCombinedResults (Some combined) s in
            toast {| Toast.title := "Comprehensive Analysis Complete";
                     Toast.description :=
                       ("Analyzed " ++ JS.show_nat (length frameResults) ++ " frames. Found "
                          ++ JS.show_nat (length (CombinedAnalysisResult.allDamages combined))
                          ++ " total damage instances.")%string;
                     Toast.variant := None |} s
      | (Throw error, s) =>
          let s := console_error "Analysis error:" (Thrown_to_string error) s in
          toast {| Toast.title := "Analysis Failed";
                   Toast.description :=
                     match error with
                     | ErrorValue message => message
                     | OtherValue => "Failed to analyze frames. Please try again."
                     end;
                   Toast.variant := Some "destructive" |} s
      end in
    (* finally *)
    let s := setIsAnalyzingAllFrames false s in
    let s := setAnalysisProgress 0 s in
    setCurrentAnalyzingFrame 0 s.

(** ** Vocabulary of the properties *)

(** [m] is the maximum of [vs]: it occurs in [vs] and bounds it. *)
Definition is_maximum (m : Z) (vs : list Z) : Prop :=
  In m vs /\ Forall (fun v => v <= m) vs.

Definition costMin (u : FrameAnalysisResult.t) : Z :=
  RepairCost.min (AnalysisResult.estimatedRepairCost u).

Definition costMax (u : FrameAnalysisResult.t) : Z :=
  RepairCost.max (AnalysisResult.estimatedRepairCost u).

Definition combinedMin (r : CombinedAnalysisResult.t) : JS.number :=
  RepairCost.min (CombinedAnalysisResult.estimatedRepairCost r).

Definition combinedMax (r : CombinedAnalysisResult.t) : JS.number :=
  RepairCost.max (CombinedAnalysisResult.estimatedRepairCost r).

Definition unitSeverity (u : FrameAnalysisResult.t) : Severity :=
  AnalysisResult.overallSeverity u.

(** The callback of the severity [reduce] (lines 333-335 and 460-462). *)
Definition keepHigher (max : Severity) (unit : FrameAnalysisResult.t) : Severity :=
  if severityOrder (AnalysisResult.overallSeverity unit) >? severityOrder max
  then AnalysisResult.overallSeverity unit else max.

(** [a] is at most as severe as [b] under None < Minor < Moderate < Severe. *)
Definition Severity_le (a b : Severity) : Prop := severityOrder a <= severityOrder b.

Definition damageCount (u : FrameAnalysisResult.t) : nat :=
  length (AnalysisResult.damages u).

(** The outcome carries an analysis result that the loop keeps. *)
Definition succeeded (o : InvokeOutcome) : bool :=
  match o with
  | Resolves (Some (DataResult _)) None => true
  | _ => false
  end.

(** The Analysis Client reported an error for the unit. *)
Definition clientError (o : InvokeOutcome) : bool :=
  match o with
  | Resolves _ (Some _) => true
  | _ => false
  end.

Definition rejected (o : InvokeOutcome) : bool :=
  match o with
  | Rejects _ => true
  | Resolves _ _ => false
  end.

(** The outcome of the call for position [i] of [units]. *)
Definition outcomeAt (invoke : Client) (units : list string) (i : nat) : InvokeOutcome :=
  invoke i (nth i units "").

(** The state in which the loop finds itself after the unit at position
    [k] (the first [k + 1] iterations), starting from [s]. *)
Definition afterUnit (noun : string) (invoke : Client) (units : list string) (k : nat)
    (s : State.t) : State.t :=
  snd (analyzeLoop noun invoke units (seq 0 (S k)) [] s).

(** What the loop body appends to its local array for position [i]. *)
Definition keptAt (invoke : Client) (units : list string) (i : nat)
  : list FrameAnalysisResult.t :=
  match outcomeAt invoke units i with
  | Resolves (Some (DataResult result)) None =>
      [FrameAnalysisResult.mk result (Z.of_nat i) (nth i units "")]
  | _ => []
  end.

(** What the loop body writes to the console for position [i]. *)
Definition errorLine (noun : string) (invoke : Client) (units : list string) (i : nat)
  : list string :=
  match outcomeAt invoke units i with
  | Resolves _ (Some e) =>
      [(("Error analyzing " ++ noun ++ " " ++ JS.show_nat (i + 1) ++ ":") ++ " " ++ e)%string]
  | _ => []
  end.

(** [s'] shows the same reports, toasts and aggregator calls as [s]. *)
Definition untouched (s s' : State.t) : Prop :=
  State.toasts s' = State.toasts s /\
  State.aggregations s' = State.aggregations s /\
  State.combinedResults s' = State.combinedResults s /\
  State.results s' = State.results s.

(** The two batch runs side by side. *)
Inductive Batch : Type := Images | Frames.

Definition submitted (b : Batch) (s : State.t) : list string :=
  match b with
  | Images => State.uploadedImages s
  | Frames => State.videoFrames s
  end.

Definition orchestrate (b : Batch) : Client -> State.t -> State.t :=
  match b with
  | Images => analyzeAllImages
  | Frames => analyzeAllFrames
  end.

Definition nounOf (b : Batch) : string :=
  match b with
  | Images => "image"
  | Frames => "frame"
  end.

(** The invariant on [allDamages] with the tags read as positions in the
    aggregator's own input [units]. *)
Definition observations_index_the_input (units : list FrameAnalysisResult.t) : Prop :=
  length (CombinedAnalysisResult.allDamages (combineImageResults units))
  = list_sum (map damageCount units) /\
  Forall (fun d => 0 <= TaggedDamage.frameIndex d < Z.of_nat (length units))
         (CombinedAnalysisResult.allDamages (combineImageResults units)).

(** ** Scenarios *)

Module Scenario.

Definition scratch : DamageItem.t :=
  DamageItem.mk "scratch" "left door" DMinor "Surface scratch along the door.".

Definition dent : DamageItem.t :=
  DamageItem.mk "dent" "hood" DSevere "Deep dent across the hood.".

(** The "vehicle without damage" answer of the system prompt. *)
Definition clean : AnalysisResult.t :=
  {| AnalysisResult.hasVehicle := true;
     AnalysisResult.hasDamage := false;
     AnalysisResult.overallSeverity := None_;
     AnalysisResult.confidenceScore := 90;
     AnalysisResult.damages := [];
     AnalysisResult.affectedAreas := [];
     AnalysisResult.estimatedRepairCost := RepairCost.mk 0 0 "INR";
     AnalysisResult.recommendations :=
       ["Vehicle appears to be in good condition."; "Regular maintenance recommended."];
     AnalysisResult.summary :=
       "Vehicle analyzed. No visible damage detected. The vehicle appears to be in good condition.";
     AnalysisResult.annotatedImage := None |}.

Definition damaged (severity : Severity) (confidence : Z) (damage : DamageItem.t)
    (lo hi : Z) : AnalysisResult.t :=
  {| AnalysisResult.hasVehicle := true;
     AnalysisResult.hasDamage := true;
     AnalysisResult.overallSeverity := severity;
     AnalysisResult.confidenceScore := confidence;
     AnalysisResult.damages := [damage];
     AnalysisResult.affectedAreas := [DamageItem.location damage];
     AnalysisResult.estimatedRepairCost := RepairCost.mk lo hi "INR";
     AnalysisResult.recommendations := ["Visit a body shop."];
     AnalysisResult.summary := "Damage found.";
     AnalysisResult.annotatedImage := None |}.

Definition minorScratch : AnalysisResult.t := damaged Minor 85 scratch 5000 25000.
Definition moderateDent : AnalysisResult.t := damaged Moderate 80 dent 25000 100000.
Definition severeDent : AnalysisResult.t := damaged Severe 92 dent 100000 500000.

(** A unit whose range is inverted. *)
Definition inverted : AnalysisResult.t := damaged Minor 50 scratch 9000 1000.

(** Units with cost minima 5000, 25000 and maxima 25000, 100000. *)
Definition costUnits : list FrameAnalysisResult.t :=
  [ FrameAnalysisResult.mk minorScratch 0 "img0";
    FrameAnalysisResult.mk moderateDent 1 "img1" ].

Definition costUnitsSwapped : list FrameAnalysisResult.t :=
  [ FrameAnalysisResult.mk moderateDent 1 "img1";
    FrameAnalysisResult.mk minorScratch 0 "img0" ].

Definition invertedUnits : list FrameAnalysisResult.t :=
  [ FrameAnalysisResult.mk inverted 0 "img0";
    FrameAnalysisResult.mk clean 1 "img1" ].

Definition initial (images frames : list string) : State.t :=
  {| State.uploadedImages := images;
     State.videoFrames := frames;
     State.isAnalyzingAllFrames := false;
     State.isAnalyzingAllImages := false;
     State.analysisProgress := 0;
     State.currentAnalyzingFrame := 0;
     State.results := None;
     State.combinedResults := None;
     State.requests := [];
     State.console := [];
     State.toasts := [];
     State.aggregations := 0 |}.

Definition fourImages : list string := ["img0"; "img1"; "img2"; "img3"].

Definition non2xx : string := "Edge Function returned a non-2xx status code".

(** Units 1 and 3 fail at the Analysis Client; unit 0 is clean and unit 2
    shows a dent. *)
Definition partialClient : Client :=
  fun i _ =>
    match i with
    | 0%nat => Resolves (Some (DataResult clean)) None
    | 2%nat => Resolves (Some (DataResult severeDent)) None
    | _ => Resolves None (Some non2xx)
    end.

(** What the orchestrator hands to the aggregator in that batch. *)
Definition partialResults : list FrameAnalysisResult.t :=
  [ FrameAnalysisResult.mk clean 0 "img0";
    FrameAnalysisResult.mk severeDent 2 "img2" ].

(** Every unit fails: one with an error, one without data, one with an
    error body, and the call for the last one rejects. *)
Definition failingClient : Client :=
  fun i _ =>
    match i with
    | 0%nat => Resolves None (Some non2xx)
    | 1%nat => Resolves None None
    | 2%nat => Resolves (Some (DataError "Rate limit exceeded. Please try again later.")) None
    | _ => Rejects (ErrorValue "Failed to fetch")
    end.

(** Two images; the call for the second one returns an error. *)
Definition twoImages : list string := ["img0"; "img1"].

Definition lastFailsClient : Client :=
  fun i _ =>
    match i with
    | 0%nat => Resolves (Some (DataResult clean)) None
    | _ => Resolves None (Some non2xx)
    end.

(** Same batch, the second unit failing through an error body instead. *)
Definition lastErrorBodyClient : Client :=
  fun i _ =>
    match i with
    | 0%nat => Resolves (Some (DataResult clean)) None
    | _ => Resolves (Some (DataError "AI credits exhausted. Please add more credits.")) None
    end.

(** The edge function with a configured key, facing a gateway whose
    answer is [content].  The parser oracle agrees with [JSON.parse] on
    the bodies used here: it reads one known document and rejects the
    rest. *)
Definition quote : string := String (ascii_of_nat 34) EmptyString.
Definition newline : string := String (ascii_of_nat 10) EmptyString.
Definition q (s : string) : string := (quote ++ s ++ quote)%string.

Definition cleanJson : string :=
  ("{" ++ q "hasVehicle" ++ ":true," ++ q "hasDamage" ++ ":false,"
     ++ q "overallSeverity" ++ ":" ++ q "None" ++ ","
     ++ q "confidenceScore" ++ ":90,"
     ++ q "damages" ++ ":[]," ++ q "affectedAreas" ++ ":[],"
     ++ q "estimatedRepairCost" ++ ":{" ++ q "min" ++ ":0," ++ q "max" ++ ":0,"
     ++ q "currency" ++ ":" ++ q "INR" ++ "},"
     ++ q "recommendations" ++ ":[" ++ q "Vehicle appears to be in good condition."
     ++ "," ++ q "Regular maintenance recommended." ++ "],"
     ++ q "summary" ++ ":"
     ++ q "Vehicle analyzed. No visible damage detected. The vehicle appears to be in good condition."
     ++ "}")%string.

Definition fencedCleanJson : string :=
  ("Here is the analysis:" ++ newline ++ "```json" ++ newline ++ cleanJson ++ newline
     ++ "```" ++ newline)%string.

Definition parser (s : string) : option AnalysisResult.t :=
  if (s =? cleanJson)%string then Some clean else None.

Definition world (content : option string) : EdgeFunction.World :=
  {| EdgeFunction.LOVABLE_API_KEY := Some "key";
     EdgeFunction.JSON_parse := parser;
     EdgeFunction.analysisReply := EdgeFunction.Ok content;
     EdgeFunction.editReply := EdgeFunction.EditNotOk |}.

Definition post : EdgeFunction.Request :=
  EdgeFunction.mkRequest "POST" (EdgeFunction.JsonValue (Some "data:image/jpeg;base64,AAAA")).

End Scenario.

(** ** Vocabulary of the further properties *)

Definition confidence (u : FrameAnalysisResult.t) : Z := AnalysisResult.confidenceScore u.

(** The sum of the units' confidence scores. *)
Definition confidenceTotal (units : list FrameAnalysisResult.t) : Z :=
  fold_right Z.add 0 (map confidence units).

Definition unitCurrency (u : FrameAnalysisResult.t) : string :=
  RepairCost.currency (AnalysisResult.estimatedRepairCost u).

Definition combinedCurrency (r : CombinedAnalysisResult.t) : string :=
  RepairCost.currency (CombinedAnalysisResult.estimatedRepairCost r).

(** [x] does not occur in [seen]. *)
Definition fresh (seen : list string) (x : string) : bool :=
  if in_dec string_dec x seen then false else true.

(** The first position of [units] whose call rejects, if any. *)
Definition firstRejection (invoke : Client) (units : list string) : option nat :=
  find (fun i => rejected (outcomeAt invoke units i)) (seq 0 (length units)).

(** The in-flight flag of a batch run. *)
Definition inFlight (b : Batch) (s : State.t) : bool :=
  match b with
  | Images => State.isAnalyzingAllImages s
  | Frames => State.isAnalyzingAllFrames s
  end.

(** The aggregator a batch run calls. *)
Definition combineOf (b : Batch) : list FrameAnalysisResult.t -> CombinedAnalysisResult.t :=
  match b with
  | Images => combineImageResults
  | Frames => combineFrameResults
  end.

(** What a batch run keeps: the succeeded units, in order. *)
Definition keptOf (b : Batch) (invoke : Client) (s : State.t) : list FrameAnalysisResult.t :=
  flat_map (keptAt invoke (submitted b s)) (seq 0 (length (submitted b s))).

(** [s'] holds the same media and the same in-flight flags as [s]. *)
Definition sameMedia (s s' : State.t) : Prop :=
  State.uploadedImages s' = State.uploadedImages s /\
  State.videoFrames s' = State.videoFrames s /\
  State.isAnalyzingAllImages s' = State.isAnalyzingAllImages s /\
  State.isAnalyzingAllFrames s' = State.isAnalyzingAllFrames s.

(** The text a batch run shows when it catches something that is not an
    [Error]. *)
Definition fallbackNotice (b : Batch) : string :=
  match b with
  | Images => "Failed to analyze images. Please try again."
  | Frames => "Failed to analyze frames. Please try again."
  end.

(** How many requests a batch run sends: up to the first rejected call. *)
Definition requestCount (invoke : Client) (units : list string) : nat :=
  match firstRejection invoke units with
  | Some k => S k
  | None => length units
  end.

(** Every character of [s] satisfies [p]. *)
Fixpoint string_forall (p : ascii -> bool) (s : string) : bool :=
  match s with
  | EmptyString => true
  | String c rest => p c && string_forall p rest
  end.

Definition is_backtick (c : ascii) : bool := (nat_of_ascii c =? 96)%nat.

(** [s] neither starts nor ends with white space. *)
Definition trimmed (s : string) : Prop :=
  EdgeFunction.trimStart s = s /\
  EdgeFunction.trimStart (EdgeFunction.rev_string s "") = EdgeFunction.rev_string s "".

(** The request gets as far as the gateway: it is not a preflight, it
    carries an image, and the key is configured. *)
Definition reachesGateway (w : EdgeFunction.World) (req : EdgeFunction.Request) : Prop :=
  (EdgeFunction.method req =? "OPTIONS")%string = false /\
  (exists image, EdgeFunction.json req = EdgeFunction.JsonValue (Some image) /\
                 JS.truthy image = true) /\
  (exists key, EdgeFunction.LOVABLE_API_KEY w = Some key /\ JS.truthy key = true).

(** The same world with another answer to the annotation call. *)
Definition withEditReply (w : EdgeFunction.World) (reply : EdgeFunction.EditReply)
  : EdgeFunction.World :=
  EdgeFunction.mkWorld (EdgeFunction.LOVABLE_API_KEY w) (EdgeFunction.JSON_parse w)
    (EdgeFunction.analysisReply w) reply.

(** A response body without its annotated image. *)
Definition withoutAnnotation (b : EdgeFunction.Body) : EdgeFunction.Body :=
  match b with
  | EdgeFunction.ResultBody r =>
      EdgeFunction.ResultBody (EdgeFunction.withAnnotatedImage r None)
  | _ => b
  end.

(** An answer of the model wrapped in a json code fence, between a lead-in
    and a trailer. *)
Definition fenced (before document after : string) : string :=
  (before ++ "```json" ++ Scenario.newline ++ document ++ Scenario.newline ++ "```" ++ after)%string.

(** ** The rest of the panel (DemoSection.tsx, lines 57-240 and 496-540) *)

(** [mediaType]: ['image' | 'video' | 'multi-image']. *)
Inductive MediaType : Type := image | video | multi_image.

Module File.
(** A dropped or picked file: its MIME type, and what
    [FileReader.readAsDataURL] yields for it ([None] when the read fails, in
    which case [onload] never fires). *)
Record t : Type := mk
  { type : string;
    dataUrl : option string }.
End File.

Module Panel.
(** The state of the component: the part the batch orchestrators work on,
    and the rest of the [useState] cells. *)
Record t : Type := mk
  { core : State.t;
    uploadedImage : option string;
    uploadedVideo : option string;
    selectedFrameIndex : Z;
    selectedImageIndex : Z;
    isExtractingFrames : bool;
    isAnalyzing : bool;
    isDragOver : bool;
    mediaType : option MediaType }.
End Panel.

Definition onCore (f : State.t -> State.t) (p : Panel.t) : Panel.t :=
  Panel.mk (f (Panel.core p)) (Panel.uploadedImage p) (Panel.uploadedVideo p)
    (Panel.selectedFrameIndex p) (Panel.selectedImageIndex p) (Panel.isExtractingFrames p)
    (Panel.isAnalyzing p) (Panel.isDragOver p) (Panel.mediaType p).

Definition setUploadedImages (v : list string) (s : State.t) : State.t :=
  State.mk v (State.videoFrames s) (State.isAnalyzingAllFrames s)
    (State.isAnalyzingAllImages s) (State.analysisProgress s) (State.currentAnalyzingFrame s)
    (State.results s) (State.combinedResults s) (State.requests s) (State.console s)
    (State.toasts s) (State.aggregations s).

Definition setVideoFrames (v : list string) (s : State.t) : State.t :=
  State.mk (State.uploadedImages s) v (State.isAnalyzingAllFrames s)
    (State.isAnalyzingAllImages s) (State.analysisProgress s) (State.currentAnalyzingFrame s)
    (State.results s) (State.combinedResults s) (State.requests s) (State.console s)
    (State.toasts s) (State.aggregations s).

Definition setUploadedImage (v : option string) (p : Panel.t) : Panel.t :=
  Panel.mk (Panel.core p) v (Panel.uploadedVideo p)
    (Panel.selectedFrameIndex p) (Panel.selectedImageIndex p) (Panel.isExtractingFrames p)
    (Panel.isAnalyzing p) (Panel.isDragOver p) (Panel.mediaType p).

Definition setUploadedVideo (v : option string) (p : Panel.t) : Panel.t :=
  Panel.mk (Panel.core p) (Panel.uploadedImage p) v
    (Panel.selectedFrameIndex p) (Panel.selectedImageIndex p) (Panel.isExtractingFrames p)
    (Panel.isAnalyzing p) (Panel.isDragOver p) (Panel.mediaType p).

Definition setSelectedFrameIndex (v : Z) (p : Panel.t) : Panel.t :=
  Panel.mk (Panel.core p) (Panel.uploadedImage p) (Panel.uploadedVideo p)
    v (Panel.selectedImageIndex p) (Panel.isExtractingFrames p)
    (Panel.isAnalyzing p) (Panel.isDragOver p) (Panel.mediaType p).

Definition setSelectedImageIndex (v : Z) (p : Panel.t) : Panel.t :=
  Panel.mk (Panel.core p) (Panel.uploadedImage p) (Panel.uploadedVideo p)
    (Panel.selectedFrameIndex p) v (Panel.isExtractingFrames p)
    (Panel.isAnalyzing p) (Panel.isDragOver p) (Panel.mediaType p).

Definition setIsExtractingFrames (v : bool) (p : Panel.t) : Panel.t :=
  Panel.mk (Panel.core p) (Panel.uploadedImage p) (Panel.uploadedVideo p)
    (Panel.selectedFrameIndex p) (Panel.selectedImageIndex p) v
    (Panel.isAnalyzing p) (Panel.isDragOver p) (Panel.mediaType p).

Definition setIsAnalyzing (v : bool) (p : Panel.t) : Panel.t :=
  Panel.mk (Panel.core p) (Panel.uploadedImage p) (Panel.uploadedVideo p)
    (Panel.selectedFrameIndex p) (Panel.selectedImageIndex p) (Panel.isExtractingFrames p)
    v (Panel.isDragOver p) (Panel.mediaType p).

Definition setIsDragOver (v : bool) (p : Panel.t) : Panel.t :=
  Panel.mk (Panel.core p) (Panel.uploadedImage p) (Panel.uploadedVideo p)
    (Panel.selectedFrameIndex p) (Panel.selectedImageIndex p) (Panel.isExtractingFrames p)
    (Panel.isAnalyzing p) v (Panel.mediaType p).

Definition setMediaType (v : option MediaType) (p : Panel.t) : Panel.t :=
  Panel.mk (Panel.core p) (Panel.uploadedImage p) (Panel.uploadedVideo p)
    (Panel.selectedFrameIndex p) (Panel.selectedImageIndex p) (Panel.isExtractingFrames p)
    (Panel.isAnalyzing p) (Panel.isDragOver p) v.

(** [xs[index]]: [undefined] outside the array. *)
Definition at_index (xs : list string) (index : Z) : option string :=
  if index <? 0 then None else nth_error xs (Z.to_nat index).

(** [!v] for a [string | null] cell. *)
Definition absent (v : option string) : bool :=
  match v with
  | Some s => negb (JS.truthy s)
  | None => true
  end.

(** Lines 115-127. *)
Definition processImageFile (file : File.t) (p : Panel.t) : Panel.t :=
  match File.dataUrl file with
  | None => p
  | Some result =>
      let p := setUploadedImage (Some result) p in
      let p := onCore (setUploadedImages []) p in
      let p := setUploadedVideo None p in
      let p := onCore (setVideoFrames []) p in
      let p := setMediaType (Some image) p in
      let p := onCore (setResults None) p in
      onCore (setCombinedResults None) p
  end.

(** The reading loop of lines 130-139: the data URLs in order, or nothing
    at all when one of the reads never completes. *)
Fixpoint readAll (files : list File.t) : option (list string) :=
  match files with
  | [] => Some []
  | file :: rest =>
      match File.dataUrl file with
      | None => None
      | Some dataUrl =>
          match readAll rest with
          | None => None
          | Some images => Some (dataUrl :: images)
          end
      end
  end.

(** Lines 129-154. *)
Definition processMultipleImages (files : list File.t) (p : Panel.t) : Panel.t :=
  match readAll files with
  | None => p
  | Some images =>
      let p := onCore (setUploadedImages images) p in
      let p := setUploadedImage (at_index images 0) p in
      let p := setSelectedImageIndex 0 p in
      let p := setUploadedVideo None p in
      let p := onCore (setVideoFrames []) p in
      let p := setMediaType (Some multi_image) p in
      let p := onCore (setResults None) p in
      let p := onCore (setCombinedResults None) p in
      onCore
        (toast {| Toast.title := "Images Uploaded";
                  Toast.description :=
                    (JS.show_nat (length images)
                       ++ " images ready for analysis. Select an image or analyze all at once.")%string;
                  Toast.variant := None |})
        p
  end.

(** Lines 156-168. *)
Definition processVideoFile (file : File.t) (p : Panel.t) : Panel.t :=
  match File.dataUrl file with
  | None => p
  | Some result =>
      let p := setUploadedVideo (Some result) p in
      let p := setUploadedImage None p in
      let p := onCore (setUploadedImages []) p in
      let p := onCore (setVideoFrames []) p in
      let p := setMediaType (Some video) p in
      let p := onCore (setResults None) p in
      onCore (setCombinedResults None) p
  end.

Definition isImageFile (f : File.t) : bool := String.prefix "image/" (File.type f).
Definition isVideoFile (f : File.t) : bool := String.prefix "video/" (File.type f).

(** Lines 97-113. *)
Definition handleFileSelect (files : list File.t) (p : Panel.t) : Panel.t :=
  match files with
  | [] => p
  | [file] =>
      if isImageFile file then processImageFile file p
      else if isVideoFile file then processVideoFile file p
      else p
  | _ =>
      let imageFiles := filter isImageFile files in
      if (0 <? length imageFiles)%nat then processMultipleImages imageFiles p else p
  end.

(** Lines 77-95. *)
Definition handleDrop (files : list File.t) (p : Panel.t) : Panel.t :=
  let p := setIsDragOver false p in
  match files with
  | [] => p
  | [file] =>
      if isImageFile file then processImageFile file p
      else if isVideoFile file then processVideoFile file p
      else p
  | _ =>
      let imageFiles := filter isImageFile files in
      if (0 <? length imageFiles)%nat then processMultipleImages imageFiles p else p
  end.

(** Lines 228-233. *)
Definition selectFrame (index : Z) (p : Panel.t) : Panel.t :=
  let p := setSelectedFrameIndex index p in
  let p := setUploadedImage (at_index (State.videoFrames (Panel.core p)) index) p in
  let p := onCore (setResults None) p in
  onCore (setCombinedResults None) p.

(** Lines 235-240. *)
Definition selectImage (index : Z) (p : Panel.t) : Panel.t :=
  let p := setSelectedImageIndex index p in
  let p := setUploadedImage (at_index (State.uploadedImages (Panel.core p)) index) p in
  let p := onCore (setResults None) p in
  onCore (setCombinedResults None) p.

(** Lines 532-540. *)
Definition clearMedia (p : Panel.t) : Panel.t :=
  let p := setUploadedImage None p in
  let p := onCore (setUploadedImages []) p in
  let p := setUploadedVideo None p in
  let p := onCore (setVideoFrames []) p in
  let p := setMediaType None p in
  let p := onCore (setResults None) p in
  onCore (setCombinedResults None) p.

(** The message of the [TypeError] raised by [data.error] on a [null]
    [data]; its wording is the engine's. *)
Definition nullDataMessage : string := "Cannot read properties of null (reading 'error')".

(** Lines 496-530.  [invoke] answers the single call. *)
Definition analyzeImage (invoke : string -> InvokeOutcome) (p : Panel.t) : Panel.t :=
  match Panel.uploadedImage p with
  | None => p
  | Some uploadedImage =>
      if negb (JS.truthy uploadedImage) then p
      else
        let p := setIsAnalyzing true p in
        let p := onCore (send uploadedImage) p in
        let attempt : Completion AnalysisResult.t :=
          match invoke uploadedImage with
          | Rejects thrown => Throw thrown
          | Resolves _ (Some error) => Throw (ErrorValue error)
          | Resolves None None => Throw (ErrorValue nullDataMessage)
          | Resolves (Some (DataError error)) None => Throw (ErrorValue error)
          | Resolves (Some (DataResult data)) None => Normal data
          end in
        let p :=
          match attempt with
          | Normal data =>
              let p := onCore (setResults (Some data)) p in
              onCore
                (toast {| Toast.title := "Analysis Complete";
                          Toast.description :=
                            if AnalysisResult.hasDamage data
                            then ("Detected " ++ JS.show_nat (length (AnalysisResult.damages data))
                                    ++ " damage(s) with "
                                    ++ Severity_to_string (AnalysisResult.overallSeverity data)
                                    ++ " severity.")%string
                            else "No damage detected on this vehicle.";
                          Toast.variant := None |})
                p
          | Throw error =>
              let p := onCore (console_error "Analysis error:" (Thrown_to_string error)) p in
              onCore
                (toast {| Toast.title := "Analysis Failed";
                          Toast.description :=
                            match error with
                            | ErrorValue message => message
                            | OtherValue => "Failed to analyze image. Please try again."
                            end;
                          Toast.variant := Some "destructive" |})
                p
          end in
        (* finally *)
        setIsAnalyzing false p
  end.

(** ** Frame extraction (DemoSection.tsx, lines 170-226) *)

Module Video.
(** The browser side of an extraction: whether [videoRef.current] is set,
    whether the canvas yields a 2d context, the duration of the loaded video
    (a finite number of seconds), and the frame grabbed after a seek to a
    given time, or the value thrown while seeking. *)
Record t : Type := mk
  { mounted : bool;
    context : bool;
    duration : Q;
    grab : Q -> Completion string }.
End Video.

(** [Math.min(6, Math.ceil(duration))]. *)
Definition frameCount (duration : Q) : Z := Z.min 6 (Qceiling duration).

(** [duration / frameCount]. *)
Definition sampleInterval (duration : Q) : Q := (duration / inject_Z (frameCount duration))%Q.

(** [i * interval + interval / 2], in exact arithmetic (the source
    computes in doubles). *)
Definition sampleTime (duration : Q) (i : nat) : Q :=
  (inject_Z (Z.of_nat i) * sampleInterval duration + sampleInterval duration / 2)%Q.

(** The loop of lines 194-206 over the frame numbers still to visit. *)
Fixpoint grabFrames (v : Video.t) (numbers : list nat) (frames : list string)
  : Completion (list string) :=
  match numbers with
  | [] => Normal frames
  | i :: rest =>
      match Video.grab v (sampleTime (Video.duration v) i) with
      | Normal frame => grabFrames v rest (frames ++ [frame])%list
      | Throw thrown => Throw thrown
      end
  end.

Definition extractFramesFromVideo (v : Video.t) (p : Panel.t) : Panel.t :=
  if absent (Panel.uploadedVideo p) || negb (Video.mounted v) then p
  else
    let p := setIsExtractingFrames true p in
    if negb (Video.context v) then
      let p :=
        onCore
          (toast {| Toast.title := "Error";
                    Toast.description := "Could not create canvas context for frame extraction.";
                    Toast.variant := Some "destructive" |})
          p in
      setIsExtractingFrames false p
    else
      let count := Z.to_nat (frameCount (Video.duration v)) in
      let p :=
        match grabFrames v (seq 0 count) [] with
        | Normal frames =>
            let p := onCore (setVideoFrames frames) p in
            let p := setSelectedFrameIndex 0 p in
            let p := setUploadedImage (at_index frames 0) p in
            onCore
              (toast {| Toast.title := "Frames Extracted";
                        Toast.description :=
                          ("Extracted " ++ JS.show_nat (length frames)
                             ++ " frames from video. Select a frame to analyze.")%string;
                        Toast.variant := None |})
              p
        | Throw error =>
            let p := onCore (console_error "Frame extraction error:" (Thrown_to_string error)) p in
            onCore
              (toast {| Toast.title := "Extraction Failed";
                        Toast.description :=
                          "Could not extract frames from video. Please try a different video.";
                        Toast.variant := Some "destructive" |})
              p
        end in
      (* finally *)
      setIsExtractingFrames false p.

(** ** Bodies that are not analysis results (DemoSection.tsx, lines 242-323) *)



(** An entry of the local array [imageResults]: a unit of the declared
    shape, or the spread of an unshaped body with its position and image. *)
Inductive Kept : Type :=
| KeptResult (unit : FrameAnalysisResult.t)
| KeptOther (frameIndex : Z) (frameImage : string).




(** The entries of the array when all of them have the declared shape. *)
Fixpoint shapedUnits (kept : list Kept) : option (list FrameAnalysisResult.t) :=
  match kept with
  | [] => Some []
  | KeptResult unit :: rest =>
      match shapedUnits rest with
      | Some units => Some (unit :: units)
      | None => None
      end
  | KeptOther _ _ :: _ => None
  end.








(** A character of the ASCII range. *)
Definition is_ascii (c : ascii) : bool := (nat_of_ascii c <? 128)%nat.

(** ** Vocabulary of the panel properties *)

(** The data URLs of the files that can be read, in order. *)
Definition urls (files : list File.t) : list string :=
  flat_map (fun f => match File.dataUrl f with
                     | Some url => [url]
                     | None => []
                     end) files.

(** The selection holds something the panel accepts: one image or video,
    or several files with an image among them. *)
Definition qualifies (files : list File.t) : bool :=
  match files with
  | [] => false
  | [file] => isImageFile file || isVideoFile file
  | _ => existsb isImageFile files
  end.

(** The outcome of a single call is an analysis result. *)
Definition usable (o : InvokeOutcome) : option AnalysisResult.t :=
  match o with
  | Resolves (Some (DataResult data)) None => Some data
  | _ => None
  end.

(** ** Further scenarios *)

Module Upload.

Definition photo (name : string) : File.t := File.mk "image/jpeg" (Some name).
Definition clip : File.t := File.mk "video/mp4" (Some "clip").
Definition notes : File.t := File.mk "text/plain" (Some "notes").

Definition empty : Panel.t :=
  Panel.mk (Scenario.initial [] []) None None 0 0 false false false None.

(** A panel showing a report over two uploaded images. *)
Definition analysed : Panel.t :=
  onCore (analyzeAllImages Scenario.lastFailsClient)
         (handleFileSelect [photo "img0"; photo "img1"] empty).

(** A ten-second clip every frame of which can be grabbed. *)
Definition player : Video.t :=
  Video.mk true true 10 (fun t => Normal "frame").

(** The same clip when the third seek throws. *)
Definition brokenPlayer : Video.t :=
  Video.mk true true 10
    (fun t => if Qle_bool t 4 then Normal "frame" else Throw (ErrorValue "seek failed")).

(** The first call succeeds, the second one rejects, the third one would
    succeed. *)
Definition abortingClient : Client :=
  fun i _ =>
    match i with
    | 1%nat => Rejects (ErrorValue "Failed to fetch")
    | _ => Resolves (Some (DataResult Scenario.minorScratch)) None
    end.

Definition threeImages : list string := ["img0"; "img1"; "img2"].



Definition singleClient : string -> InvokeOutcome :=
  fun _ => Resolves (Some (DataResult Scenario.minorScratch)) None.

Definition failingSingleClient : string -> InvokeOutcome :=
  fun _ => Resolves None (Some Scenario.non2xx).

End Upload.

(** ** Properties of the built-ins *)

Lemma or_zero_id (x : Z) : JS.or_zero x = x.
Proof.
  unfold JS.or_zero. destruct (Z.eqb_spec x 0); congruence.
Qed.

Lemma map_or_zero {A : Type} (f : A -> Z) (xs : list A) :
  map (fun a => JS.or_zero (f a)) xs = map f xs.
Proof.
  apply map_ext. intros a. apply or_zero_id.
Qed.

Lemma fold_left_max_ge (vs : list Z) (a : Z) : a <= fold_left Z.max vs a.
Proof.
  revert a. induction vs as [|v vs IH]; intros a; simpl.
  - lia.
  - specialize (IH (Z.max a v)). lia.
Qed.

Lemma fold_left_max_is_maximum (vs : list Z) (a : Z) :
  is_maximum (fold_left Z.max vs a) (a :: vs).
Proof.
  revert a. induction vs as [|v vs IH]; intros a; simpl.
  - split; [now left | constructor; [lia | constructor]].
  - destruct (IH (Z.max a v)) as [Hin Hall]. split.
    + destruct Hin as [Heq | Hin].
      * destruct (Z.max_spec a v) as [[_ Hm] | [_ Hm]]; rewrite Hm in Heq |- *.
        -- right; now left.
        -- now left.
      * right; now right.
    + inversion Hall as [|? ? Hhd Htl]; subst.
      constructor; [lia | constructor; [lia | exact Htl]].
Qed.

Lemma Math_max_is_maximum (vs : list Z) :
  vs <> [] -> exists m, JS.Math_max vs = JS.Num m /\ is_maximum m vs.
Proof.
  destruct vs as [|v vs]; [congruence | intros _].
  exists (fold_left Z.max vs v). split; [reflexivity | apply fold_left_max_is_maximum].
Qed.

Lemma is_maximum_unique (m m' : Z) (vs vs' : list Z) :
  Permutation vs vs' -> is_maximum m vs -> is_maximum m' vs' -> m = m'.
Proof.
  intros Hp [Hin Hall] [Hin' Hall'].
  rewrite Forall_forall in Hall, Hall'.
  assert (m <= m') by (apply Hall'; eapply Permutation_in; eauto).
  assert (m' <= m) by (apply Hall; eapply Permutation_in; [apply Permutation_sym|]; eauto).
  lia.
Qed.

Lemma is_maximum_mono (lo hi : Z) (A : Type) (f g : A -> Z) (xs : list A) :
  Forall (fun x => f x <= g x) xs ->
  is_maximum lo (map f xs) -> is_maximum hi (map g xs) -> lo <= hi.
Proof.
  intros Hle [Hin _] [_ Hall].
  apply in_map_iff in Hin. destruct Hin as (x & <- & Hx).
  rewrite Forall_forall in Hle, Hall.
  specialize (Hle x Hx). specialize (Hall (g x) (in_map g xs x Hx)). lia.
Qed.

(** ** Properties of the severity fold *)

Lemma severityOrder_inj (a b : Severity) : severityOrder a = severityOrder b -> a = b.
Proof.
  destruct a, b; simpl; intros H; try reflexivity; discriminate H.
Qed.

Lemma severityOrder_keepHigher (a : Severity) (u : FrameAnalysisResult.t) :
  severityOrder (keepHigher a u) = Z.max (severityOrder a) (severityOrder (unitSeverity u)).
Proof.
  unfold keepHigher, unitSeverity.
  destruct (Z.gtb_spec (severityOrder (AnalysisResult.overallSeverity u)) (severityOrder a)); lia.
Qed.

Lemma severityOrder_fold (units : list FrameAnalysisResult.t) (a : Severity) :
  severityOrder (fold_left keepHigher units a)
  = fold_left Z.max (map (fun u => severityOrder (unitSeverity u)) units) (severityOrder a).
Proof.
  revert a. induction units as [|u units IH]; intros a; simpl.
  - reflexivity.
  - rewrite IH, severityOrder_keepHigher. reflexivity.
Qed.

Lemma image_overallSeverity (units : list FrameAnalysisResult.t) :
  CombinedAnalysisResult.overallSeverity (combineImageResults units)
  = fold_left keepHigher units None_.
Proof. reflexivity. Qed.

Lemma frame_overallSeverity (units : list FrameAnalysisResult.t) :
  CombinedAnalysisResult.overallSeverity (combineFrameResults units)
  = fold_left keepHigher units None_.
Proof. reflexivity. Qed.

Lemma severity_fold_is_maximum (units : list FrameAnalysisResult.t) :
  is_maximum (severityOrder (fold_left keepHigher units None_))
             (0 :: map (fun u => severityOrder (unitSeverity u)) units).
Proof.
  rewrite severityOrder_fold. apply fold_left_max_is_maximum.
Qed.

Lemma severity_fold_bounds (units : list FrameAnalysisResult.t) :
  Forall (fun u => Severity_le (unitSeverity u) (fold_left keepHigher units None_)) units.
Proof.
  destruct (severity_fold_is_maximum units) as [_ Hall].
  inversion Hall as [|? ? _ Htl]; subst.
  rewrite Forall_map in Htl. exact Htl.
Qed.

Lemma severity_fold_attained (units : list FrameAnalysisResult.t) :
  units <> [] -> In (fold_left keepHigher units None_) (map unitSeverity units).
Proof.
  intros Hne. destruct (severity_fold_is_maximum units) as [Hin _].
  destruct Hin as [H0 | Hin].
  - destruct units as [|u units]; [congruence|].
    pose proof (severity_fold_bounds (u :: units)) as Hb.
    inversion Hb as [|? ? Hu _]; subst. unfold Severity_le in Hu.
    rewrite <- H0 in Hu. left. apply severityOrder_inj. rewrite <- H0.
    destruct (unitSeverity u); simpl in *; lia.
  - apply in_map_iff in Hin. destruct Hin as (u & Hu & Hin).
    apply in_map_iff. exists u. split; [now apply severityOrder_inj | exact Hin].
Qed.

Lemma severity_fold_permutation (units units' : list FrameAnalysisResult.t) :
  Permutation units units' ->
  fold_left keepHigher units None_ = fold_left keepHigher units' None_.
Proof.
  intros Hp. apply severityOrder_inj.
  eapply is_maximum_unique; [| apply severity_fold_is_maximum | apply severity_fold_is_maximum].
  constructor. apply Permutation_map. exact Hp.
Qed.

(** ** Cost roll-up *)

Lemma image_combinedMin (units : list FrameAnalysisResult.t) :
  combinedMin (combineImageResults units) = JS.Math_max (map costMin units).
Proof.
  unfold combinedMin, combineImageResults; simpl.
  f_equal. apply (map_or_zero costMin).
Qed.

Lemma image_combinedMax (units : list FrameAnalysisResult.t) :
  combinedMax (combineImageResults units) = JS.Math_max (map costMax units).
Proof.
  unfold combinedMax, combineImageResults; simpl.
  f_equal. apply (map_or_zero costMax).
Qed.

Lemma frame_combinedMin (units : list FrameAnalysisResult.t) :
  combinedMin (combineFrameResults units) = JS.Math_max (map costMin units).
Proof.
  unfold combinedMin, combineFrameResults; simpl.
  f_equal. apply (map_or_zero costMin).
Qed.

Lemma frame_combinedMax (units : list FrameAnalysisResult.t) :
  combinedMax (combineFrameResults units) = JS.Math_max (map costMax units).
Proof.
  unfold combinedMax, combineFrameResults; simpl.
  f_equal. apply (map_or_zero costMax).
Qed.

Lemma map_nonempty {A B : Type} (f : A -> B) (xs : list A) : xs <> [] -> map f xs <> [].
Proof.
  destruct xs; [congruence | discriminate].
Qed.

(** C1.  For a non-empty sequence of units, both aggregators report as
    [estimatedRepairCost.min] the maximum of the units' cost minima and as
    [estimatedRepairCost.max] the maximum of the units' cost maxima. *)
Theorem combined_cost_is_max_of_unit_costs (units : list FrameAnalysisResult.t) :
  units <> [] ->
  exists lo hi,
    is_maximum lo (map costMin units) /\
    is_maximum hi (map costMax units) /\
    combinedMin (combineImageResults units) = JS.Num lo /\
    combinedMax (combineImageResults units) = JS.Num hi /\
    combinedMin (combineFrameResults units) = JS.Num lo /\
    combinedMax (combineFrameResults units) = JS.Num hi.
Proof.
  intros Hne.
  destruct (Math_max_is_maximum (map costMin units) (map_nonempty _ _ Hne)) as (lo & Elo & Hlo).
  destruct (Math_max_is_maximum (map costMax units) (map_nonempty _ _ Hne)) as (hi & Ehi & Hhi).
  exists lo, hi.
  rewrite image_combinedMin, image_combinedMax, frame_combinedMin, frame_combinedMax.
  repeat split; try assumption; try apply Hlo; apply Hhi.
Qed.

(** The roll-up of the units with minima 5000, 25000 and maxima 25000,
    100000 is the range 25000 to 100000. *)
Lemma combined_cost_example :
  Scenario.costUnits <> [] /\
  map costMin Scenario.costUnits = [5000; 25000] /\
  map costMax Scenario.costUnits = [25000; 100000] /\
  combinedMin (combineImageResults Scenario.costUnits) = JS.Num 25000 /\
  combinedMax (combineImageResults Scenario.costUnits) = JS.Num 100000 /\
  combinedMin (combineFrameResults Scenario.costUnits) = JS.Num 25000 /\
  combinedMax (combineFrameResults Scenario.costUnits) = JS.Num 100000.
Proof.
  assert (Hne : Scenario.costUnits <> []) by discriminate.
  destruct (combined_cost_is_max_of_unit_costs Scenario.costUnits Hne)
    as (lo & hi & [Ilo Blo] & [Ihi Bhi] & E1 & E2 & E3 & E4).
  assert (Hlo : lo = 25000).
  { rewrite Forall_forall in Blo.
    pose proof (Blo 25000 (or_intror (or_introl eq_refl))).
    cbn in Ilo. destruct Ilo as [<- | [<- | []]]; [lia | reflexivity]. }
  assert (Hhi : hi = 100000).
  { rewrite Forall_forall in Bhi.
    pose proof (Bhi 100000 (or_intror (or_introl eq_refl))).
    cbn in Ihi. destruct Ihi as [<- | [<- | []]]; [lia | reflexivity]. }
  subst lo hi. repeat split; assumption.
Defined.

(** C10.  For a non-empty sequence the combined range is made of two finite
    numbers; it is ordered when every unit's range is, and it is inverted
    only if some unit's range is. *)
Theorem combined_cost_range_ordered (units : list FrameAnalysisResult.t) :
  units <> [] ->
  exists lo hi,
    combinedMin (combineImageResults units) = JS.Num lo /\
    combinedMax (combineImageResults units) = JS.Num hi /\
    combinedMin (combineFrameResults units) = JS.Num lo /\
    combinedMax (combineFrameResults units) = JS.Num hi /\
    (Forall (fun u => costMin u <= costMax u) units -> lo <= hi) /\
    (hi < lo -> Exists (fun u => costMax u < costMin u) units).
Proof.
  intros Hne.
  destruct (Math_max_is_maximum (map costMin units) (map_nonempty _ _ Hne)) as (lo & Elo & Hlo).
  destruct (Math_max_is_maximum (map costMax units) (map_nonempty _ _ Hne)) as (hi & Ehi & Hhi).
  exists lo, hi.
  rewrite image_combinedMin, image_combinedMax, frame_combinedMin, frame_combinedMax.
  assert (Hord : Forall (fun u => costMin u <= costMax u) units -> lo <= hi).
  { intros Hall. eapply is_maximum_mono; eauto. }
  repeat split; try assumption.
  intros Hinv.
  assert (Hnot : ~ Forall (fun u => costMin u <= costMax u) units) by (intros Hall; apply Hord in Hall; lia).
  apply neg_Forall_Exists_neg in Hnot.
  - eapply Exists_impl; [| exact Hnot]. simpl. intros u Hu. lia.
  - intros u. destruct (Z_le_dec (costMin u) (costMax u)); [left | right]; assumption.
Qed.

Lemma combined_cost_range_ordered_example :
  Scenario.costUnits <> [] /\
  Forall (fun u => costMin u <= costMax u) Scenario.costUnits /\
  exists lo hi,
    combinedMin (combineImageResults Scenario.costUnits) = JS.Num lo /\
    combinedMax (combineImageResults Scenario.costUnits) = JS.Num hi /\
    lo <= hi.
Proof.
  assert (Hne : Scenario.costUnits <> []) by discriminate.
  assert (Hall : Forall (fun u => costMin u <= costMax u) Scenario.costUnits).
  { repeat constructor; unfold costMin, costMax; simpl; lia. }
  destruct (combined_cost_range_ordered Scenario.costUnits Hne)
    as (lo & hi & E1 & E2 & _ & _ & Hord & _).
  split; [exact Hne | split; [exact Hall |]].
  exists lo, hi. repeat split; try assumption. exact (Hord Hall).
Defined.

(** An inverted unit range does invert the combined range: the roll-up of
    a unit with range 9000 to 1000 and a clean unit is 9000 to 1000. *)
Lemma combined_cost_range_may_invert :
  combinedMin (combineImageResults Scenario.invertedUnits) = JS.Num 9000 /\
  combinedMax (combineImageResults Scenario.invertedUnits) = JS.Num 1000 /\
  Exists (fun u => costMax u < costMin u) Scenario.invertedUnits.
Proof.
  repeat split. apply Exists_cons_hd. unfold costMin, costMax; simpl; lia.
Qed.

(** ** Severity roll-up *)

(** C2.  For a non-empty sequence of units, the combined severity of both
    aggregators is the severity of one of the units, no unit is more
    severe, and the result is the same for every reordering of the input. *)
Theorem overall_severity_is_max_of_units (units units' : list FrameAnalysisResult.t) :
  units <> [] ->
  Permutation units units' ->
  let s := CombinedAnalysisResult.overallSeverity (combineImageResults units) in
  In s (map unitSeverity units) /\
  Forall (fun u => Severity_le (unitSeverity u) s) units /\
  CombinedAnalysisResult.overallSeverity (combineImageResults units') = s /\
  CombinedAnalysisResult.overallSeverity (combineFrameResults units) = s /\
  CombinedAnalysisResult.overallSeverity (combineFrameResults units') = s.
Proof.
  intros Hne Hp s. subst s.
  rewrite !image_overallSeverity, !frame_overallSeverity.
  rewrite <- (severity_fold_permutation units units' Hp).
  repeat split.
  - apply severity_fold_attained, Hne.
  - apply severity_fold_bounds.
Qed.

Lemma overall_severity_example :
  Scenario.costUnits <> [] /\
  Permutation Scenario.costUnits Scenario.costUnitsSwapped /\
  CombinedAnalysisResult.overallSeverity (combineImageResults Scenario.costUnits) = Moderate /\
  CombinedAnalysisResult.overallSeverity (combineImageResults Scenario.costUnitsSwapped) = Moderate /\
  CombinedAnalysisResult.overallSeverity (combineFrameResults Scenario.costUnitsSwapped) = Moderate.
Proof.
  assert (Hne : Scenario.costUnits <> []) by discriminate.
  assert (Hp : Permutation Scenario.costUnits Scenario.costUnitsSwapped) by apply perm_swap.
  destruct (overall_severity_is_max_of_units _ _ Hne Hp) as (_ & _ & E1 & E2 & E3).
  split; [exact Hne | split; [exact Hp | split; [exact E2 | split; [exact E1 | exact E3]]]].
Defined.

(** ** The two aggregators *)

(** C9.  On every input the two aggregators agree on every field of the
    report but [summary]. *)
Theorem aggregators_agree_up_to_summary (units : list FrameAnalysisResult.t) :
  CombinedAnalysisResult.totalFramesAnalyzed (combineImageResults units)
  = CombinedAnalysisResult.totalFramesAnalyzed (combineFrameResults units) /\
  CombinedAnalysisResult.framesWithDamage (combineImageResults units)
  = CombinedAnalysisResult.framesWithDamage (combineFrameResults units) /\
  CombinedAnalysisResult.overallSeverity (combineImageResults units)
  = CombinedAnalysisResult.overallSeverity (combineFrameResults units) /\
  CombinedAnalysisResult.averageConfidence (combineImageResults units)
  = CombinedAnalysisResult.averageConfidence (combineFrameResults units) /\
  CombinedAnalysisResult.allDamages (combineImageResults units)
  = CombinedAnalysisResult.allDamages (combineFrameResults units) /\
  CombinedAnalysisResult.uniqueDamageTypes (combineImageResults units)
  = CombinedAnalysisResult.uniqueDamageTypes (combineFrameResults units) /\
  CombinedAnalysisResult.affectedAreas (combineImageResults units)
  = CombinedAnalysisResult.affectedAreas (combineFrameResults units) /\
  CombinedAnalysisResult.estimatedRepairCost (combineImageResults units)
  = CombinedAnalysisResult.estimatedRepairCost (combineFrameResults units) /\
  CombinedAnalysisResult.recommendations (combineImageResults units)
  = CombinedAnalysisResult.recommendations (combineFrameResults units) /\
  CombinedAnalysisResult.frameResults (combineImageResults units)
  = CombinedAnalysisResult.frameResults (combineFrameResults units).
Proof.
  repeat split.
Qed.

Lemma append_inj_l (p a b : string) : (p ++ a = p ++ b)%string -> a = b.
Proof.
  induction p as [|c p IH]; simpl; intros H; [exact H | apply IH; congruence].
Qed.

(** The field left out: the two summaries are different texts on every
    input. *)
Lemma aggregators_differ_on_summary (units : list FrameAnalysisResult.t) :
  CombinedAnalysisResult.summary (combineImageResults units)
  <> CombinedAnalysisResult.summary (combineFrameResults units).
Proof.
  unfold combineImageResults, combineFrameResults; simpl. intros H.
  apply (append_inj_l "Comprehensive analysis of ") in H.
  apply append_inj_l in H. discriminate H.
Qed.

(** ** The loop of the orchestrators *)

Local Open Scope list_scope.

Section Loop.

Variable noun : string.
Variable invoke : Client.
Variable units : list string.

Lemma analyzeUnit_rejects i acc s thrown :
  outcomeAt invoke units i = Rejects thrown ->
  analyzeUnit noun invoke units i acc s
  = (Throw thrown, send (nth i units "") (setCurrentAnalyzingFrame (Z.of_nat i + 1) s)).
Proof.
  unfold outcomeAt, analyzeUnit. intros ->. reflexivity.
Qed.

Lemma analyzeUnit_error i acc s data e :
  outcomeAt invoke units i = Resolves data (Some e) ->
  analyzeUnit noun invoke units i acc s
  = (Normal acc,
     console_error ("Error analyzing " ++ noun ++ " " ++ JS.show_nat (i + 1) ++ ":")%string e
       (send (nth i units "") (setCurrentAnalyzingFrame (Z.of_nat i + 1) s))).
Proof.
  unfold outcomeAt, analyzeUnit. intros ->. reflexivity.
Qed.

Lemma analyzeUnit_no_error i acc s data :
  outcomeAt invoke units i = Resolves data None ->
  analyzeUnit noun invoke units i acc s
  = (Normal (acc ++ keptAt invoke units i),
     setAnalysisProgress (percentage i (length units))
       (send (nth i units "") (setCurrentAnalyzingFrame (Z.of_nat i + 1) s))).
Proof.
  unfold keptAt, outcomeAt, analyzeUnit. intros ->.
  destruct data as [[e | r] |]; rewrite ?app_nil_r; reflexivity.
Qed.

(** A failed step leaves the array as it is; a step always leaves the
    reports, the toasts and the aggregator alone. *)
Lemma analyzeUnit_untouched i acc s :
  untouched s (snd (analyzeUnit noun invoke units i acc s)).
Proof.
  destruct (outcomeAt invoke units i) as [thrown | data [e |]] eqn:E.
  - rewrite (analyzeUnit_rejects _ _ _ _ E). repeat split.
  - rewrite (analyzeUnit_error _ _ _ _ _ E). repeat split.
  - rewrite (analyzeUnit_no_error _ _ _ _ E). repeat split.
Qed.

Lemma untouched_trans s1 s2 s3 : untouched s1 s2 -> untouched s2 s3 -> untouched s1 s3.
Proof.
  unfold untouched. intros (A1 & A2 & A3 & A4) (B1 & B2 & B3 & B4).
  repeat split; congruence.
Qed.

Lemma analyzeLoop_untouched positions acc s :
  untouched s (snd (analyzeLoop noun invoke units positions acc s)).
Proof.
  revert acc s. induction positions as [|i rest IH]; intros acc s; simpl.
  - repeat split.
  - pose proof (analyzeUnit_untouched i acc s) as Hu.
    destruct (analyzeUnit noun invoke units i acc s) as [[acc' | thrown] s']; simpl in *.
    + eapply untouched_trans; [exact Hu | apply IH].
    + exact Hu.
Qed.

(** A loop that ends normally has kept exactly the succeeded units. *)
Lemma analyzeLoop_normal positions acc s acc' s' :
  analyzeLoop noun invoke units positions acc s = (Normal acc', s') ->
  acc' = acc ++ flat_map (keptAt invoke units) positions.
Proof.
  revert acc s. induction positions as [|i rest IH]; intros acc s; simpl.
  - intros [= <- _]. now rewrite app_nil_r.
  - destruct (outcomeAt invoke units i) as [thrown | data [e |]] eqn:E.
    + rewrite (analyzeUnit_rejects _ _ _ _ E). discriminate.
    + rewrite (analyzeUnit_error _ _ _ _ _ E). intros H. apply IH in H.
      unfold keptAt at 1. rewrite E. destruct data as [[? | ?] |]; exact H.
    + rewrite (analyzeUnit_no_error _ _ _ _ E). intros H. apply IH in H.
      now rewrite app_assoc.
Qed.

(** When every call resolves, the loop visits every position: it sends
    one request per unit and writes one line per client error. *)
Lemma analyzeLoop_resolves positions acc s :
  (forall i, In i positions -> rejected (outcomeAt invoke units i) = false) ->
  exists s',
    analyzeLoop noun invoke units positions acc s
    = (Normal (acc ++ flat_map (keptAt invoke units) positions), s') /\
    State.requests s' = State.requests s ++ map (fun i => nth i units "") positions /\
    State.console s' = State.console s ++ flat_map (errorLine noun invoke units) positions /\
    (positions <> [] -> State.currentAnalyzingFrame s' = Z.of_nat (last positions 0%nat) + 1).
Proof.
  revert acc s. induction positions as [|i rest IH]; intros acc s Hres; simpl.
  - exists s. rewrite !app_nil_r. repeat split. congruence.
  - assert (Hrest : forall j, In j rest -> rejected (outcomeAt invoke units j) = false)
      by (intros j Hj; apply Hres; now right).
    pose proof (Hres i (or_introl eq_refl)) as Hi.
    destruct (outcomeAt invoke units i) as [thrown | data [e |]] eqn:E; [discriminate Hi | |].
    + rewrite (analyzeUnit_error _ _ _ _ _ E).
      match goal with
      | |- context [analyzeLoop _ _ _ rest ?a ?st] =>
          destruct (IH a st Hrest) as (s' & Hloop & Hreq & Hcon & Hcur)
      end.
      exists s'. rewrite Hloop, Hreq, Hcon.
      unfold keptAt at 2, errorLine at 2. rewrite E. simpl.
      rewrite <- !app_assoc. simpl.
      split; [destruct data as [[? | ?] |]; reflexivity |].
      split; [reflexivity |]. split; [reflexivity |]. intros _.
      destruct rest as [|j rest']; [| apply Hcur; discriminate].
      simpl in Hloop. injection Hloop as _ <-. reflexivity.
    + rewrite (analyzeUnit_no_error _ _ _ _ E).
      match goal with
      | |- context [analyzeLoop _ _ _ rest ?a ?st] =>
          destruct (IH a st Hrest) as (s' & Hloop & Hreq & Hcon & Hcur)
      end.
      exists s'. rewrite Hloop, Hreq, Hcon.
      unfold errorLine at 2. rewrite E. simpl.
      rewrite <- !app_assoc. simpl.
      repeat split. intros _.
      destruct rest as [|j rest']; [| apply Hcur; discriminate].
      simpl in Hloop. injection Hloop as _ <-. reflexivity.
Qed.

(** When no call succeeds, the loop ends with the array it started from,
    or is cut short by a rejected call. *)
Lemma analyzeLoop_all_fail positions acc s :
  (forall i, In i positions -> succeeded (outcomeAt invoke units i) = false) ->
  fst (analyzeLoop noun invoke units positions acc s) = Normal acc \/
  exists thrown, fst (analyzeLoop noun invoke units positions acc s) = Throw thrown.
Proof.
  revert acc s. induction positions as [|i rest IH]; intros acc s Hfail; simpl.
  - now left.
  - assert (Hrest : forall j, In j rest -> succeeded (outcomeAt invoke units j) = false)
      by (intros j Hj; apply Hfail; now right).
    pose proof (Hfail i (or_introl eq_refl)) as Hi.
    destruct (outcomeAt invoke units i) as [thrown | data [e |]] eqn:E.
    + rewrite (analyzeUnit_rejects _ _ _ _ E). right. now exists thrown.
    + rewrite (analyzeUnit_error _ _ _ _ _ E). apply IH, Hrest.
    + rewrite (analyzeUnit_no_error _ _ _ _ E).
      assert (Hk : keptAt invoke units i = []).
      { unfold keptAt. rewrite E. destruct data as [[? | ?] |]; [reflexivity | discriminate Hi | reflexivity]. }
      rewrite Hk, app_nil_r. apply IH, Hrest.
Qed.

Lemma keptAt_frameIndex positions :
  map FrameAnalysisResult.frameIndex (flat_map (keptAt invoke units) positions)
  = map Z.of_nat (filter (fun i => succeeded (outcomeAt invoke units i)) positions).
Proof.
  induction positions as [|i rest IH]; simpl; [reflexivity |].
  rewrite map_app, IH. unfold keptAt.
  destruct (outcomeAt invoke units i) as [thrown | [[? | ?] |] [e |]]; reflexivity.
Qed.

Lemma keptAt_frameImage positions :
  Forall (fun f => exists i, In i positions /\
                     FrameAnalysisResult.frameIndex f = Z.of_nat i /\
                     FrameAnalysisResult.frameImage f = nth i units "")
         (flat_map (keptAt invoke units) positions).
Proof.
  induction positions as [|i rest IH]; simpl; [constructor |].
  apply Forall_app. split.
  - unfold keptAt.
    destruct (outcomeAt invoke units i) as [thrown | [[? | ?] |] [e |]]; constructor;
      [| constructor].
    exists i. simpl. repeat split. now left.
  - eapply Forall_impl; [| exact IH]. simpl.
    intros f (j & Hj & Hf). exists j. split; [now right | exact Hf].
Qed.

End Loop.

Lemma map_nth_seq_self (units : list string) :
  map (fun i => nth i units "") (seq 0 (length units)) = units.
Proof.
  induction units as [|u units IH]; simpl; [reflexivity |].
  f_equal. rewrite <- seq_shift, map_map. exact IH.
Qed.

(** ** Observations and their tags *)

Lemma allDamages_length (units : list FrameAnalysisResult.t) :
  length (CombinedAnalysisResult.allDamages (combineImageResults units))
  = list_sum (map damageCount units).
Proof.
  unfold combineImageResults, JS.flatMap; simpl.
  induction units as [|u units IH]; simpl; [reflexivity |].
  rewrite length_app, length_map, IH. reflexivity.
Qed.

Lemma allDamages_tags (units : list FrameAnalysisResult.t) :
  Forall (fun d => In (TaggedDamage.frameIndex d) (map FrameAnalysisResult.frameIndex units))
         (CombinedAnalysisResult.allDamages (combineImageResults units)).
Proof.
  unfold combineImageResults, JS.flatMap; simpl.
  induction units as [|u units IH]; simpl; [constructor |].
  apply Forall_app. split.
  - apply Forall_map, Forall_forall. intros d _. simpl. now left.
  - eapply Forall_impl; [| exact IH]. intros d Hd. now right.
Qed.

(** What [analyzeAllImages] leaves in [combinedResults] when it ran. *)
Lemma analyzeAllImages_report (invoke : Client) (s : State.t) (report : CombinedAnalysisResult.t) :
  State.uploadedImages s <> [] ->
  State.combinedResults (analyzeAllImages invoke s) = Some report ->
  let kept := flat_map (keptAt invoke (State.uploadedImages s))
                       (seq 0 (length (State.uploadedImages s))) in
  kept <> [] /\ report = combineImageResults kept.
Proof.
  intros Hne. unfold analyzeAllImages.
  destruct (Nat.eqb_spec (length (State.uploadedImages s)) 0) as [E0 | _].
  { apply length_zero_iff_nil in E0. contradiction. }
  cbv zeta.
  match goal with
  | |- context [analyzeLoop ?n ?c ?u ?p ?a ?st] =>
      pose proof (analyzeLoop_untouched n c u p a st) as (_ & _ & Hc & _);
      pose proof (analyzeLoop_normal n c u p a st) as Hn;
      destruct (analyzeLoop n c u p a st) as [[acc | thrown] s1]
  end; simpl in Hc.
  - specialize (Hn acc s1 eq_refl). simpl in Hn. subst acc.
    destruct (Nat.eqb_spec
                (length (flat_map (keptAt invoke (State.uploadedImages s))
                           (seq 0 (length (State.uploadedImages s))))) 0) as [E | E].
    + simpl. rewrite Hc. discriminate.
    + simpl. intros [= <-]. split; [| reflexivity].
      intros Hnil. apply E. rewrite Hnil. reflexivity.
  - simpl. rewrite Hc. discriminate.
Qed.

(** C3, as amended.  [allDamages] has as many entries as the units have
    damages, and every entry carries the [frameIndex] of a unit of the
    input.  In a report left by [analyzeAllImages] these tags are positions
    in the sequence of uploaded images, not in the aggregator's input. *)
Theorem observations_carry_submission_positions :
  (forall units : list FrameAnalysisResult.t,
      length (CombinedAnalysisResult.allDamages (combineImageResults units))
      = list_sum (map damageCount units) /\
      Forall (fun d => In (TaggedDamage.frameIndex d)
                          (map FrameAnalysisResult.frameIndex units))
             (CombinedAnalysisResult.allDamages (combineImageResults units))) /\
  (forall (invoke : Client) (s : State.t) (report : CombinedAnalysisResult.t),
      State.uploadedImages s <> [] ->
      State.combinedResults (analyzeAllImages invoke s) = Some report ->
      CombinedAnalysisResult.frameResults report <> [] /\
      report = combineImageResults (CombinedAnalysisResult.frameResults report) /\
      Forall (fun d => 0 <= TaggedDamage.frameIndex d
                       < Z.of_nat (length (State.uploadedImages s)))
             (CombinedAnalysisResult.allDamages report)).
Proof.
  split.
  - intros units. split; [apply allDamages_length | apply allDamages_tags].
  - intros invoke s report Hne Hrep.
    destruct (analyzeAllImages_report invoke s report Hne Hrep) as [Hk ->].
    split; [exact Hk | split; [reflexivity |]].
    eapply Forall_impl; [| apply allDamages_tags].
    intros d Hd. apply in_map_iff in Hd. destruct Hd as (f & <- & Hf).
    pose proof (keptAt_frameImage invoke (State.uploadedImages s)
                  (seq 0 (length (State.uploadedImages s)))) as Hall.
    rewrite Forall_forall in Hall. destruct (Hall f Hf) as (i & Hi & -> & _).
    apply in_seq in Hi. lia.
Qed.

Lemma observations_carry_submission_positions_example :
  Scenario.fourImages <> [] /\
  State.combinedResults
    (analyzeAllImages Scenario.partialClient (Scenario.initial Scenario.fourImages []))
  = Some (combineImageResults Scenario.partialResults) /\
  Forall (fun d => 0 <= TaggedDamage.frameIndex d < 4)
         (CombinedAnalysisResult.allDamages (combineImageResults Scenario.partialResults)).
Proof.
  assert (Hne : Scenario.fourImages <> []) by discriminate.
  split; [exact Hne | split; [reflexivity |]].
  exact (proj2 (proj2 (proj2 observations_carry_submission_positions
                         Scenario.partialClient
                         (Scenario.initial Scenario.fourImages [])
                         (combineImageResults Scenario.partialResults)
                         Hne eq_refl))).
Defined.

(** C3, as stated, fails on the input the orchestrator builds when units 1
    and 3 of four fail: the aggregator receives two units, and the dent of
    the second one is tagged 2. *)
Lemma tags_exceed_aggregator_input :
  State.combinedResults
    (analyzeAllImages Scenario.partialClient (Scenario.initial Scenario.fourImages []))
  = Some (combineImageResults Scenario.partialResults) /\
  Scenario.partialResults <> [] /\
  ~ observations_index_the_input Scenario.partialResults.
Proof.
  split; [reflexivity | split; [discriminate |]].
  intros [_ Hall]. inversion Hall as [|d ds Hd _]; subst.
  simpl in Hd. lia.
Qed.

(** ** Progress reporting *)

(** A unit answered with an error leaves the progress where it was. *)
Lemma client_error_keeps_progress noun invoke units i acc s data e :
  outcomeAt invoke units i = Resolves data (Some e) ->
  let s' := snd (analyzeUnit noun invoke units i acc s) in
  State.analysisProgress s' = State.analysisProgress s /\
  State.currentAnalyzingFrame s' = Z.of_nat i + 1.
Proof.
  intros E. rewrite (analyzeUnit_error _ _ _ _ _ _ _ _ E). split; reflexivity.
Qed.

(** A unit answered without an error, usable or not, moves it. *)
Lemma resolved_unit_moves_progress noun invoke units i acc s data :
  outcomeAt invoke units i = Resolves data None ->
  let s' := snd (analyzeUnit noun invoke units i acc s) in
  State.analysisProgress s' = percentage i (length units) /\
  State.currentAnalyzingFrame s' = Z.of_nat i + 1.
Proof.
  intros E. rewrite (analyzeUnit_no_error _ _ _ _ _ _ _ E). split; reflexivity.
Qed.

(** C4, at a batch of two units whose second call returns an error: after
    the last unit the counter shows 2, but the progress still shows the 50
    percent reached after the first unit, in the image loop and in the frame
    loop alike.  When the second unit fails through an error body instead,
    the progress does reach 100 percent. *)
Theorem progress_stalls_on_client_error :
  let start := Scenario.initial Scenario.twoImages Scenario.twoImages in
  let images := afterUnit "image" Scenario.lastFailsClient Scenario.twoImages 1 start in
  let frames := afterUnit "frame" Scenario.lastFailsClient Scenario.twoImages 1 start in
  let sibling := afterUnit "image" Scenario.lastErrorBodyClient Scenario.twoImages 1 start in
  (State.currentAnalyzingFrame images = 2 /\
   (State.analysisProgress images == 50)%Q /\
   ~ (State.analysisProgress images == percentage 1 2)%Q) /\
  (State.currentAnalyzingFrame frames = 2 /\
   (State.analysisProgress frames == 50)%Q /\
   ~ (State.analysisProgress frames == percentage 1 2)%Q) /\
  (percentage 1 2 == 100)%Q /\
  (State.analysisProgress sibling == 100)%Q.
Proof.
  cbv zeta. repeat split; try reflexivity;
    intros H; vm_compute in H; discriminate H.
Qed.

(** ** Partial and total failure of a batch *)



(** *** Bodies that are not analysis results *)


Lemma shapedUnits_KeptOther (kept : list Kept) (frameIndex : Z) (frameImage : string) :
  In (KeptOther frameIndex frameImage) kept -> shapedUnits kept = None.
Proof.
  induction kept as [| entry rest IH]; simpl; [intros [] |].
  intros [-> | Hin]; [reflexivity |].
  destruct entry; [| reflexivity]. rewrite (IH Hin). reflexivity.
Qed.







Lemma analyzeAllImages_all_fail (invoke : Client) (s : State.t) :
  State.uploadedImages s <> [] ->
  (forall i, (i < length (State.uploadedImages s))%nat ->
             succeeded (outcomeAt invoke (State.uploadedImages s) i) = false) ->
  let s' := analyzeAllImages invoke s in
  State.combinedResults s' = None /\
  State.aggregations s' = State.aggregations s /\
  exists notice,
    State.toasts s' = State.toasts s ++ [notice] /\
    Toast.title notice = "Analysis Failed" /\
    Toast.variant notice = Some "destructive".
Proof.
  intros Hne Hfail. unfold analyzeAllImages.
  destruct (Nat.eqb_spec (length (State.uploadedImages s)) 0) as [E0 | _].
  { apply length_zero_iff_nil in E0. contradiction. }
  cbv zeta.
  match goal with
  | |- context [analyzeLoop ?n ?c ?u ?p ?a ?st] =>
      pose proof (analyzeLoop_untouched n c u p a st) as (Ht & Ha & Hc & _);
      assert (Hend : fst (analyzeLoop n c u p a st) = Normal a \/
                     exists thrown, fst (analyzeLoop n c u p a st) = Throw thrown)
        by (apply analyzeLoop_all_fail; intros i Hi; apply Hfail; apply in_seq in Hi; lia);
      destruct (analyzeLoop n c u p a st) as [[acc | thrown] s1]
  end; simpl in Ht, Ha, Hc, Hend.
  - destruct Hend as [[= ->] | [thrown [=]]]. simpl.
    rewrite Hc, Ha, Ht. repeat split. eexists. repeat split.
  - simpl. rewrite Hc, Ha, Ht. repeat split. eexists. repeat split.
Qed.

Lemma analyzeAllFrames_all_fail (invoke : Client) (s : State.t) :
  State.videoFrames s <> [] ->
  (forall i, (i < length (State.videoFrames s))%nat ->
             succeeded (outcomeAt invoke (State.videoFrames s) i) = false) ->
  let s' := analyzeAllFrames invoke s in
  State.combinedResults s' = None /\
  State.aggregations s' = State.aggregations s /\
  exists notice,
    State.toasts s' = State.toasts s ++ [notice] /\
    Toast.title notice = "Analysis Failed" /\
    Toast.variant notice = Some "destructive".
Proof.
  intros Hne Hfail. unfold analyzeAllFrames.
  destruct (Nat.eqb_spec (length (State.videoFrames s)) 0) as [E0 | _].
  { apply length_zero_iff_nil in E0. contradiction. }
  cbv zeta.
  match goal with
  | |- context [analyzeLoop ?n ?c ?u ?p ?a ?st] =>
      pose proof (analyzeLoop_untouched n c u p a st) as (Ht & Ha & Hc & _);
      assert (Hend : fst (analyzeLoop n c u p a st) = Normal a \/
                     exists thrown, fst (analyzeLoop n c u p a st) = Throw thrown)
        by (apply analyzeLoop_all_fail; intros i Hi; apply Hfail; apply in_seq in Hi; lia);
      destruct (analyzeLoop n c u p a st) as [[acc | thrown] s1]
  end; simpl in Ht, Ha, Hc, Hend.
  - destruct Hend as [[= ->] | [thrown [=]]]. simpl.
    rewrite Hc, Ha, Ht. repeat split. eexists. repeat split.
  - simpl. rewrite Hc, Ha, Ht. repeat split. eexists. repeat split.
Qed.

(** C6.  When no unit of a batch succeeds, in whatever way each one fails,
    the run leaves [combinedResults] cleared, calls no aggregator, and shows
    one toast, the destructive "Analysis Failed" notice. *)
Theorem no_report_when_every_unit_fails (b : Batch) (invoke : Client) (s : State.t) :
  submitted b s <> [] ->
  (forall i, (i < length (submitted b s))%nat ->
             succeeded (outcomeAt invoke (submitted b s) i) = false) ->
  let s' := orchestrate b invoke s in
  State.combinedResults s' = None /\
  State.aggregations s' = State.aggregations s /\
  exists notice,
    State.toasts s' = State.toasts s ++ [notice] /\
    Toast.title notice = "Analysis Failed" /\
    Toast.variant notice = Some "destructive".
Proof.
  destruct b; simpl; [apply analyzeAllImages_all_fail | apply analyzeAllFrames_all_fail].
Qed.

Lemma no_report_example :
  let s' := orchestrate Frames Scenario.failingClient (Scenario.initial [] Scenario.fourImages) in
  State.combinedResults s' = None /\
  State.aggregations s' = 0%nat /\
  exists notice,
    State.toasts s' = [notice] /\
    Toast.title notice = "Analysis Failed" /\
    Toast.variant notice = Some "destructive".
Proof.
  apply (no_report_when_every_unit_fails Frames Scenario.failingClient
           (Scenario.initial [] Scenario.fourImages)).
  - discriminate.
  - intros i _. destruct i as [|[|[|i]]]; reflexivity.
Defined.

(** ** The parse fallback of the edge function *)

Import EdgeFunction.

Lemma parseAnalysis_fallback (w : World) (content : option string) :
  (forall text, content = Some text -> JSON_parse w (jsonStrOf text) = None) ->
  parseAnalysis w content = fallbackResult.
Proof.
  intros Hbad. destruct content as [text |]; simpl; [| reflexivity].
  rewrite (Hbad text eq_refl). reflexivity.
Qed.

(** C7.  For a request that reaches the gateway and a gateway answer whose
    content, once a surrounding code fence is stripped, is rejected by
    [JSON.parse] (or is missing), the handler answers 200 with the fixed
    fallback: no vehicle, no damage, severity None, confidence 0, no damages,
    no affected areas, a cost range of 0 to 0 and the could-not-process
    summary. *)
Theorem malformed_body_yields_fallback
    (w : World) (req : Request) (image key : string) (content : option string) :
  (method req =? "OPTIONS")%string = false ->
  json req = JsonValue (Some image) ->
  JS.truthy image = true ->
  LOVABLE_API_KEY w = Some key ->
  JS.truthy key = true ->
  analysisReply w = Ok content ->
  (forall text, content = Some text -> JSON_parse w (jsonStrOf text) = None) ->
  exists result,
    handler w req = mkResponse 200 (ResultBody result) /\
    AnalysisResult.confidenceScore result = 0 /\
    AnalysisResult.hasVehicle result = false /\
    AnalysisResult.hasDamage result = false /\
    AnalysisResult.overallSeverity result = None_ /\
    AnalysisResult.damages result = [] /\
    AnalysisResult.affectedAreas result = [] /\
    RepairCost.min (AnalysisResult.estimatedRepairCost result) = 0 /\
    RepairCost.max (AnalysisResult.estimatedRepairCost result) = 0 /\
    AnalysisResult.summary result = "Could not process the image. Please upload a clear image." /\
    AnalysisResult.annotatedImage result = None.
Proof.
  intros Hm Hj Hi Hk Hkey Hr Hbad.
  exists (withAnnotatedImage fallbackResult None).
  split; [| repeat split].
  unfold handler. rewrite Hm, Hj, Hi, Hk, Hkey, Hr. simpl.
  rewrite (parseAnalysis_fallback w content Hbad). reflexivity.
Qed.

Lemma malformed_body_example :
  exists result,
    handler (Scenario.world (Some "not JSON")) Scenario.post = mkResponse 200 (ResultBody result) /\
    AnalysisResult.confidenceScore result = 0 /\
    AnalysisResult.hasVehicle result = false /\
    AnalysisResult.summary result = "Could not process the image. Please upload a clear image.".
Proof.
  destruct (malformed_body_yields_fallback
              (Scenario.world (Some "not JSON")) Scenario.post
              "data:image/jpeg;base64,AAAA" "key" (Some "not JSON"))
    as (result & Hresp & Hconf & Hveh & _ & _ & _ & _ & _ & _ & Hsum & _);
    try reflexivity.
  - intros text [= <-]. reflexivity.
  - exists result. repeat split; assumption.
Defined.

(** A body the parser accepts, fenced or not, is passed on as it is. *)
Lemma parseable_body_is_kept :
  handler (Scenario.world (Some Scenario.fencedCleanJson)) Scenario.post
  = mkResponse 200 (ResultBody Scenario.clean) /\
  handler (Scenario.world (Some Scenario.cleanJson)) Scenario.post
  = mkResponse 200 (ResultBody Scenario.clean).
Proof.
  split; reflexivity.
Qed.

(** C8, at the body "not JSON": the result the handler substitutes carries
    the currency code USD, which is not INR; an aggregator that receives it
    first reports USD as well, although its own default is INR. *)
Theorem fallback_currency_is_not_INR :
  exists result,
    handler (Scenario.world (Some "not JSON")) Scenario.post = mkResponse 200 (ResultBody result) /\
    RepairCost.currency (AnalysisResult.estimatedRepairCost result) = "USD" /\
    RepairCost.currency (AnalysisResult.estimatedRepairCost result) <> "INR" /\
    RepairCost.currency
      (CombinedAnalysisResult.estimatedRepairCost
         (combineImageResults
            [FrameAnalysisResult.mk result 0 "img0";
             FrameAnalysisResult.mk Scenario.clean 1 "img1"])) = "USD" /\
    RepairCost.currency (CombinedAnalysisResult.estimatedRepairCost (combineImageResults []))
    = "INR".
Proof.
  eexists. split; [reflexivity |]. repeat split. discriminate.
Qed.

(** The currency of an answer is the one the parsed document carries, or
    the one of the fallback: with a gateway that keeps to INR, USD is the
    only other code the handler can send. *)
Lemma handler_currency (w : World) (req : Request) (st : Z) (result : AnalysisResult.t) :
  (forall text parsed,
      JSON_parse w text = Some parsed ->
      RepairCost.currency (AnalysisResult.estimatedRepairCost parsed) = "INR") ->
  handler w req = mkResponse st (ResultBody result) ->
  RepairCost.currency (AnalysisResult.estimatedRepairCost result) = "INR" \/
  RepairCost.currency (AnalysisResult.estimatedRepairCost result) = "USD".
Proof.
  intros Hinr. unfold handler.
  destruct (method req =? "OPTIONS")%string; [discriminate |].
  destruct (json req) as [m | [image |]]; try discriminate.
  destruct (negb (JS.truthy image)); [discriminate |].
  destruct (LOVABLE_API_KEY w) as [key |]; [| discriminate].
  destruct (negb (JS.truthy key)); [discriminate |].
  destruct (analysisReply w) as [m | code text | content].
  - discriminate.
  - destruct (code =? 429); [discriminate |]. destruct (code =? 402); discriminate.
  - intros [= _ <-]. simpl. unfold parseAnalysis.
    destruct content as [text |]; [| now right].
    destruct (JSON_parse w (jsonStrOf text)) as [parsed |] eqn:E; [| now right].
    left. exact (Hinr _ _ E).
Qed.

(** ** The three-image scenario of the specification *)

Example three_images_scenario :
  let units :=
    [ FrameAnalysisResult.mk Scenario.clean 0 "img0";
      FrameAnalysisResult.mk Scenario.minorScratch 1 "img1";
      FrameAnalysisResult.mk Scenario.severeDent 2 "img2" ] in
  let report := combineImageResults units in
  CombinedAnalysisResult.totalFramesAnalyzed report = 3%nat /\
  CombinedAnalysisResult.framesWithDamage report = 2%nat /\
  length (CombinedAnalysisResult.allDamages report) = 2%nat /\
  CombinedAnalysisResult.overallSeverity report = Severe /\
  CombinedAnalysisResult.averageConfidence report = JS.Num 89.
Proof.
  repeat split.
Qed.

(** ** Further properties of the aggregators *)

(** X1.  Both aggregators count every unit they are given, keep the input
    as [frameResults], and never count more damaged units than units. *)
Theorem report_counts (units : list FrameAnalysisResult.t) :
  CombinedAnalysisResult.totalFramesAnalyzed (combineImageResults units) = length units /\
  CombinedAnalysisResult.frameResults (combineImageResults units) = units /\
  (CombinedAnalysisResult.framesWithDamage (combineImageResults units)
   <= CombinedAnalysisResult.totalFramesAnalyzed (combineImageResults units))%nat /\
  (CombinedAnalysisResult.framesWithDamage (combineImageResults units) = length units <->
   Forall (fun u : FrameAnalysisResult.t => AnalysisResult.hasDamage u = true) units) /\
  CombinedAnalysisResult.totalFramesAnalyzed (combineFrameResults units) = length units /\
  CombinedAnalysisResult.frameResults (combineFrameResults units) = units /\
  (CombinedAnalysisResult.framesWithDamage (combineFrameResults units)
   <= CombinedAnalysisResult.totalFramesAnalyzed (combineFrameResults units))%nat.
Proof.
  assert (Hle : forall xs : list FrameAnalysisResult.t,
             (length (filter (fun f : FrameAnalysisResult.t => AnalysisResult.hasDamage f) xs)
              <= length xs)%nat) by (intros xs; apply filter_length_le).
  repeat split; try apply Hle.
  - simpl. induction units as [|u units IH]; simpl; [constructor |].
    destruct (AnalysisResult.hasDamage u) eqn:E; simpl; intros H.
    + constructor; [exact E | apply IH; lia].
    + pose proof (Hle units). lia.
  - simpl. induction 1 as [|u units Hu _ IH]; simpl; [reflexivity |].
    rewrite Hu. simpl. now rewrite IH.
Qed.

Lemma confidence_fold (units : list FrameAnalysisResult.t) (a : Z) :
  fold_left (fun sum (f : FrameAnalysisResult.t) => sum + AnalysisResult.confidenceScore f) units a
  = a + confidenceTotal units.
Proof.
  revert a. induction units as [|u units IH]; intros a; simpl.
  - unfold confidenceTotal. simpl. lia.
  - rewrite IH. unfold confidenceTotal, confidence. simpl. lia.
Qed.

Lemma confidenceTotal_bounds (units : list FrameAnalysisResult.t) (lo hi : Z) :
  Forall (fun u => lo <= confidence u <= hi) units ->
  lo * Z.of_nat (length units) <= confidenceTotal units <= hi * Z.of_nat (length units).
Proof.
  induction 1 as [|u units Hu _ IH]; unfold confidenceTotal in *; simpl length; simpl map;
    simpl fold_right; [simpl; lia |].
  rewrite Nat2Z.inj_succ. lia.
Qed.

Lemma averageConfidence_rounds (units : list FrameAnalysisResult.t) :
  units <> [] ->
  exists a,
    CombinedAnalysisResult.averageConfidence (combineImageResults units) = JS.Num a /\
    CombinedAnalysisResult.averageConfidence (combineFrameResults units) = JS.Num a /\
    (let n := Z.of_nat (length units) in
     2 * confidenceTotal units - n < 2 * n * a <= 2 * confidenceTotal units + n) /\
    (forall lo hi, Forall (fun u => lo <= confidence u <= hi) units -> lo <= a <= hi).
Proof.
  intros Hne. destruct units as [|u rest]; [congruence |].
  set (units := u :: rest). set (n := Z.of_nat (length units)).
  assert (Hn : 0 < n) by (unfold n, units; simpl length; lia).
  exists ((2 * confidenceTotal units + n) / (2 * n)).
  assert (Havg : JS.Math_round_div (0 + confidenceTotal units) (length units)
                 = JS.Num ((2 * confidenceTotal units + n) / (2 * n))).
  { unfold JS.Math_round_div, units. simpl length. fold units. reflexivity. }
  assert (Hnear : 2 * confidenceTotal units - n
                  < 2 * n * ((2 * confidenceTotal units + n) / (2 * n))
                  <= 2 * confidenceTotal units + n).
  { pose proof (Z.div_mod (2 * confidenceTotal units + n) (2 * n)).
    pose proof (Z.mod_pos_bound (2 * confidenceTotal units + n) (2 * n)). lia. }
  split; [| split; [| split]].
  - unfold combineImageResults; simpl CombinedAnalysisResult.averageConfidence.
    rewrite confidence_fold. exact Havg.
  - unfold combineFrameResults; simpl CombinedAnalysisResult.averageConfidence.
    rewrite confidence_fold. exact Havg.
  - exact Hnear.
  - intros lo hi Hall. apply confidenceTotal_bounds in Hall. fold n in Hall.
    set (a := (2 * confidenceTotal units + n) / (2 * n)) in *. nia.
Qed.

(** X2.  For a non-empty input the average confidence is the integer
    nearest to the mean of the scores, halves rounded up, and it lies
    between any two bounds that hold for every score. *)
Theorem average_confidence_is_rounded_mean (units : list FrameAnalysisResult.t) :
  units <> [] ->
  exists a,
    CombinedAnalysisResult.averageConfidence (combineImageResults units) = JS.Num a /\
    CombinedAnalysisResult.averageConfidence (combineFrameResults units) = JS.Num a /\
    (let n := Z.of_nat (length units) in
     2 * confidenceTotal units - n < 2 * n * a <= 2 * confidenceTotal units + n) /\
    (forall lo hi, Forall (fun u => lo <= confidence u <= hi) units -> lo <= a <= hi).
Proof.
  exact (averageConfidence_rounds units).
Qed.

Lemma average_confidence_example :
  Scenario.costUnits <> [] /\
  CombinedAnalysisResult.averageConfidence (combineImageResults Scenario.costUnits) = JS.Num 83 /\
  confidenceTotal Scenario.costUnits = 165.
Proof.
  assert (Hne : Scenario.costUnits <> []) by discriminate.
  destruct (average_confidence_is_rounded_mean Scenario.costUnits Hne)
    as (a & Ha & _ & Hnear & _).
  split; [exact Hne | split; [| reflexivity]].
  rewrite Ha. f_equal. cbv zeta in Hnear.
  change (confidenceTotal Scenario.costUnits) with 165 in Hnear.
  change (Z.of_nat (length Scenario.costUnits)) with 2 in Hnear. lia.
Defined.

(** *** Deduplicated lists *)

Lemma Set_insert_all_In (xs seen : list string) (x : string) :
  In x (JS.Set_insert_all seen xs) <-> In x xs /\ ~ In x seen.
Proof.
  revert seen. induction xs as [|y xs IH]; intros seen; simpl.
  - tauto.
  - destruct (in_dec string_dec y seen) as [Hy | Hy].
    + rewrite IH. split; [tauto |]. intros [[-> | H] Hs]; tauto.
    + simpl. rewrite IH. simpl. split.
      * intros [-> | [H Hs]]; tauto.
      * intros [[-> | H] Hs]; [now left |].
        destruct (string_dec y x) as [-> | Hne]; [now left | right; tauto].
Qed.

Lemma Set_insert_all_NoDup (xs seen : list string) : NoDup (JS.Set_insert_all seen xs).
Proof.
  revert seen. induction xs as [|y xs IH]; intros seen; simpl.
  - constructor.
  - destruct (in_dec string_dec y seen) as [Hy | Hy]; [apply IH |].
    constructor; [| apply IH].
    rewrite Set_insert_all_In. simpl. tauto.
Qed.

Lemma Set_insert_all_ext (xs seen seen' : list string) :
  (forall x, In x seen <-> In x seen') ->
  JS.Set_insert_all seen xs = JS.Set_insert_all seen' xs.
Proof.
  revert seen seen'. induction xs as [|y xs IH]; intros seen seen' Heq; simpl; [reflexivity |].
  destruct (in_dec string_dec y seen) as [Hy | Hy];
    destruct (in_dec string_dec y seen') as [Hy' | Hy'].
  - apply IH, Heq.
  - apply Heq in Hy. contradiction.
  - apply Heq in Hy'. contradiction.
  - f_equal. apply IH. intros x. simpl. rewrite Heq. tauto.
Qed.

Lemma Set_insert_all_fresh (xs a seen : list string) :
  JS.Set_insert_all (a ++ seen) xs = filter (fresh seen) (JS.Set_insert_all a xs).
Proof.
  revert a. induction xs as [|y xs IH]; intros a; simpl; [reflexivity |].
  destruct (in_dec string_dec y (a ++ seen)) as [Hy | Hy];
    destruct (in_dec string_dec y a) as [Ha | Ha].
  - apply IH.
  - simpl. unfold fresh at 1.
    destruct (in_dec string_dec y seen) as [Hs | Hs].
    + rewrite <- (IH (y :: a)). apply Set_insert_all_ext.
      intros x. simpl. rewrite !in_app_iff. intuition (subst; auto).
    + apply in_app_iff in Hy. tauto.
  - exfalso. apply Hy. apply in_app_iff. now left.
  - simpl. unfold fresh at 1.
    destruct (in_dec string_dec y seen) as [Hs | Hs].
    + exfalso. apply Hy. apply in_app_iff. now right.
    + f_equal. apply (IH (y :: a)).
Qed.

Lemma Set_insert_all_app (xs ys seen : list string) :
  JS.Set_insert_all seen (xs ++ ys)
  = JS.Set_insert_all seen xs ++ JS.Set_insert_all (xs ++ seen) ys.
Proof.
  revert seen. induction xs as [|x xs IH]; intros seen; simpl; [reflexivity |].
  destruct (in_dec string_dec x seen) as [Hx | Hx].
  - rewrite IH. f_equal. apply Set_insert_all_ext.
    intros z. simpl. rewrite !in_app_iff. simpl. intuition (subst; auto).
  - simpl. rewrite IH. do 2 f_equal. apply Set_insert_all_ext.
    intros z. simpl. rewrite !in_app_iff. simpl. intuition (subst; auto).
Qed.

Lemma Set_spread_app (xs ys : list string) :
  JS.Set_spread (xs ++ ys) = JS.Set_spread xs ++ filter (fresh xs) (JS.Set_spread ys).
Proof.
  unfold JS.Set_spread. rewrite Set_insert_all_app, app_nil_r.
  f_equal. apply (Set_insert_all_fresh ys [] xs).
Qed.

(** X3.  The three deduplicated lists of a report hold no value twice and
    hold exactly the values their sources hold: the types of the collected
    damages, the units' affected areas, the units' recommendations. *)
Theorem deduplicated_lists_are_sets (units : list FrameAnalysisResult.t) :
  let report := combineImageResults units in
  NoDup (CombinedAnalysisResult.uniqueDamageTypes report) /\
  NoDup (CombinedAnalysisResult.affectedAreas report) /\
  NoDup (CombinedAnalysisResult.recommendations report) /\
  (forall x, In x (CombinedAnalysisResult.uniqueDamageTypes report) <->
             exists d, In d (CombinedAnalysisResult.allDamages report) /\ DamageItem.type d = x) /\
  (forall x, In x (CombinedAnalysisResult.affectedAreas report) <->
             exists u : FrameAnalysisResult.t, In u units /\ In x (AnalysisResult.affectedAreas u)) /\
  (forall x, In x (CombinedAnalysisResult.recommendations report) <->
             exists u : FrameAnalysisResult.t, In u units /\ In x (AnalysisResult.recommendations u)).
Proof.
  cbv zeta. unfold combineImageResults, JS.Set_spread, JS.flatMap; simpl.
  repeat split; try apply Set_insert_all_NoDup.
  - intros H. apply Set_insert_all_In in H. destruct H as [H _].
    apply in_map_iff in H. destruct H as (d & Hd & Hin). now exists d.
  - intros (d & Hin & Hd). apply Set_insert_all_In. split; [| tauto].
    apply in_map_iff. now exists d.
  - intros H. apply Set_insert_all_In in H. destruct H as [H _].
    apply in_flat_map in H. exact H.
  - intros H. apply Set_insert_all_In. split; [| tauto]. apply in_flat_map. exact H.
  - intros H. apply Set_insert_all_In in H. destruct H as [H _].
    apply in_flat_map in H. exact H.
  - intros H. apply Set_insert_all_In. split; [| tauto]. apply in_flat_map. exact H.
Qed.

(** X4.  Recommendations come in order of first occurrence across the
    units: those of the first unit, deduplicated, followed by those of the
    remaining units' roll-up that the first unit did not give. *)
Theorem recommendations_in_first_occurrence_order
    (u : FrameAnalysisResult.t) (rest : list FrameAnalysisResult.t) :
  CombinedAnalysisResult.recommendations (combineImageResults (u :: rest))
  = JS.Set_spread (AnalysisResult.recommendations u)
    ++ filter (fresh (AnalysisResult.recommendations u))
         (CombinedAnalysisResult.recommendations (combineImageResults rest)).
Proof.
  unfold combineImageResults, JS.flatMap; simpl. apply Set_spread_app.
Qed.

(** *** Order of the input *)

Lemma Math_max_permutation (vs vs' : list Z) :
  Permutation vs vs' -> JS.Math_max vs = JS.Math_max vs'.
Proof.
  intros Hp. destruct vs as [|v vs].
  - apply Permutation_nil in Hp. now subst.
  - destruct vs' as [|v' vs']; [apply Permutation_sym, Permutation_nil in Hp; discriminate |].
    unfold JS.Math_max. f_equal.
    eapply is_maximum_unique; [exact Hp | apply fold_left_max_is_maximum ..].
Qed.

Lemma confidenceTotal_permutation (units units' : list FrameAnalysisResult.t) :
  Permutation units units' -> confidenceTotal units = confidenceTotal units'.
Proof.
  unfold confidenceTotal. induction 1; simpl; lia.
Qed.

Lemma damaged_count_permutation (units units' : list FrameAnalysisResult.t) :
  Permutation units units' ->
  length (filter (fun f : FrameAnalysisResult.t => AnalysisResult.hasDamage f) units)
  = length (filter (fun f : FrameAnalysisResult.t => AnalysisResult.hasDamage f) units').
Proof.
  induction 1 as [| u l l' _ IH | u v l | l l' l'' _ IH1 _ IH2]; simpl.
  - reflexivity.
  - destruct (AnalysisResult.hasDamage u); simpl; congruence.
  - destruct (AnalysisResult.hasDamage u), (AnalysisResult.hasDamage v); reflexivity.
  - congruence.
Qed.

Lemma Set_spread_permutation (xs ys : list string) :
  Permutation xs ys -> Permutation (JS.Set_spread xs) (JS.Set_spread ys).
Proof.
  intros Hp. unfold JS.Set_spread.
  apply NoDup_Permutation; try apply Set_insert_all_NoDup.
  intros x. rewrite !Set_insert_all_In. split; intros [H Hs]; split; try exact Hs.
  - eapply Permutation_in; eauto.
  - eapply Permutation_in; [apply Permutation_sym |]; eauto.
Qed.

(** X5.  Reordering the units changes neither the counts, nor the average
    confidence, nor the cost range of a report, and it only reorders the
    collected damages and the three deduplicated lists. *)
Theorem aggregation_ignores_order (units units' : list FrameAnalysisResult.t) :
  Permutation units units' ->
  let r := combineImageResults units in
  let r' := combineImageResults units' in
  CombinedAnalysisResult.totalFramesAnalyzed r = CombinedAnalysisResult.totalFramesAnalyzed r' /\
  CombinedAnalysisResult.framesWithDamage r = CombinedAnalysisResult.framesWithDamage r' /\
  CombinedAnalysisResult.averageConfidence r = CombinedAnalysisResult.averageConfidence r' /\
  combinedMin r = combinedMin r' /\
  combinedMax r = combinedMax r' /\
  Permutation (CombinedAnalysisResult.allDamages r) (CombinedAnalysisResult.allDamages r') /\
  Permutation (CombinedAnalysisResult.uniqueDamageTypes r)
              (CombinedAnalysisResult.uniqueDamageTypes r') /\
  Permutation (CombinedAnalysisResult.affectedAreas r) (CombinedAnalysisResult.affectedAreas r') /\
  Permutation (CombinedAnalysisResult.recommendations r)
              (CombinedAnalysisResult.recommendations r').
Proof.
  intros Hp r r'. subst r r'.
  rewrite !image_combinedMin, !image_combinedMax.
  unfold combineImageResults, JS.flatMap; simpl.
  rewrite !confidence_fold, (confidenceTotal_permutation _ _ Hp), (Permutation_length Hp).
  repeat split.
  - apply damaged_count_permutation, Hp.
  - apply Math_max_permutation, Permutation_map, Hp.
  - apply Math_max_permutation, Permutation_map, Hp.
  - apply Permutation_flat_map, Hp.
  - apply Set_spread_permutation, Permutation_map, Permutation_flat_map, Hp.
  - apply Set_spread_permutation, Permutation_flat_map, Hp.
  - apply Set_spread_permutation, Permutation_flat_map, Hp.
Qed.

Lemma aggregation_ignores_order_example :
  Permutation Scenario.costUnits Scenario.costUnitsSwapped /\
  CombinedAnalysisResult.averageConfidence (combineImageResults Scenario.costUnitsSwapped)
  = JS.Num 83 /\
  CombinedAnalysisResult.uniqueDamageTypes (combineImageResults Scenario.costUnits)
  = ["scratch"; "dent"] /\
  CombinedAnalysisResult.uniqueDamageTypes (combineImageResults Scenario.costUnitsSwapped)
  = ["dent"; "scratch"] /\
  Permutation (CombinedAnalysisResult.uniqueDamageTypes (combineImageResults Scenario.costUnits))
              (CombinedAnalysisResult.uniqueDamageTypes
                 (combineImageResults Scenario.costUnitsSwapped)).
Proof.
  assert (Hp : Permutation Scenario.costUnits Scenario.costUnitsSwapped) by apply perm_swap.
  destruct (aggregation_ignores_order _ _ Hp) as (_ & _ & Havg & _ & _ & _ & Htypes & _).
  split; [exact Hp | split; [symmetry; exact Havg | split; [reflexivity | split; [reflexivity |]]]].
  exact Htypes.
Defined.

(** *** Currency *)

(** X6.  The currency of a report is never empty: it is the currency of the
    first unit, in input order, that has a non-empty one, and INR when no
    unit has. *)
Theorem combined_currency_is_first_non_empty (units : list FrameAnalysisResult.t) :
  let c := combinedCurrency (combineImageResults units) in
  c <> "" /\
  combinedCurrency (combineFrameResults units) = c /\
  ((Forall (fun u => unitCurrency u = "") units /\ c = "INR") \/
   (exists before u after,
       units = before ++ u :: after /\
       Forall (fun u => unitCurrency u = "") before /\
       unitCurrency u = c)).
Proof.
  cbv zeta. unfold combinedCurrency, combineImageResults, combineFrameResults; simpl.
  fold unitCurrency.
  assert (Hfind :
    (find (fun f : FrameAnalysisResult.t => JS.truthy (unitCurrency f)) units = None /\
     Forall (fun u => unitCurrency u = "") units) \/
    (exists before u after,
        find (fun f : FrameAnalysisResult.t => JS.truthy (unitCurrency f)) units = Some u /\
        units = before ++ u :: after /\
        Forall (fun u => unitCurrency u = "") before /\
        JS.truthy (unitCurrency u) = true)).
  { induction units as [|u units IH]; simpl.
    - left. split; [reflexivity | constructor].
    - destruct (JS.truthy (unitCurrency u)) eqn:E.
      + right. exists [], u, units. repeat split; [constructor | exact E].
      + assert (Hu : unitCurrency u = "").
        { unfold JS.truthy in E. destruct (String.eqb_spec (unitCurrency u) ""); [assumption | discriminate]. }
        destruct IH as [[Hn Hall] | (before & v & after & Hf & Hsplit & Hall & Hv)].
        * left. split; [exact Hn | constructor; assumption].
        * right. exists (u :: before), v, after.
          split; [exact Hf | split; [now rewrite Hsplit | split; [constructor; assumption | exact Hv]]]. }
  change (fun f : FrameAnalysisResult.t =>
            JS.truthy (RepairCost.currency (AnalysisResult.estimatedRepairCost f)))
    with (fun f : FrameAnalysisResult.t => JS.truthy (unitCurrency f)).
  destruct Hfind as [[Hn Hall] | (before & u & after & Hf & Hsplit & Hall & Hu)].
  - rewrite Hn. split; [discriminate | split; [reflexivity |]]. left. now split.
  - rewrite Hf. fold (unitCurrency u). unfold JS.or_string. rewrite Hu.
    split; [| split; [reflexivity |]].
    + unfold JS.truthy in Hu. destruct (String.eqb_spec (unitCurrency u) ""); [discriminate | assumption].
    + right. exists before, u, after. repeat split; assumption.
Qed.

(** ** Further properties of the batch runs *)

Lemma analyzeAllFrames_report (invoke : Client) (s : State.t) (report : CombinedAnalysisResult.t) :
  State.videoFrames s <> [] ->
  State.combinedResults (analyzeAllFrames invoke s) = Some report ->
  let kept := flat_map (keptAt invoke (State.videoFrames s))
                       (seq 0 (length (State.videoFrames s))) in
  kept <> [] /\ report = combineFrameResults kept.
Proof.
  intros Hne. unfold analyzeAllFrames.
  destruct (Nat.eqb_spec (length (State.videoFrames s)) 0) as [E0 | _].
  { apply length_zero_iff_nil in E0. contradiction. }
  cbv zeta.
  match goal with
  | |- context [analyzeLoop ?n ?c ?u ?p ?a ?st] =>
      pose proof (analyzeLoop_untouched n c u p a st) as (_ & _ & Hc & _);
      pose proof (analyzeLoop_normal n c u p a st) as Hn;
      destruct (analyzeLoop n c u p a st) as [[acc | thrown] s1]
  end; simpl in Hc.
  - specialize (Hn acc s1 eq_refl). simpl in Hn. subst acc.
    destruct (Nat.eqb_spec
                (length (flat_map (keptAt invoke (State.videoFrames s))
                           (seq 0 (length (State.videoFrames s))))) 0) as [E | E].
    + simpl. rewrite Hc. discriminate.
    + simpl. intros [= <-]. split; [| reflexivity].
      intros Hnil. apply E. rewrite Hnil. reflexivity.
  - simpl. rewrite Hc. discriminate.
Qed.

Lemma orchestrate_report (b : Batch) (invoke : Client) (s : State.t)
    (report : CombinedAnalysisResult.t) :
  submitted b s <> [] ->
  State.combinedResults (orchestrate b invoke s) = Some report ->
  keptOf b invoke s <> [] /\ report = combineOf b (keptOf b invoke s).
Proof.
  destruct b; simpl; [apply analyzeAllImages_report | apply analyzeAllFrames_report].
Qed.

Lemma keptAt_length (invoke : Client) (units : list string) (positions : list nat) :
  (length (flat_map (keptAt invoke units) positions) <= length positions)%nat.
Proof.
  induction positions as [|i rest IH]; simpl; [lia |].
  rewrite length_app. unfold keptAt at 1.
  destruct (outcomeAt invoke units i) as [thrown | [[? | ?] |] [e |]]; simpl; lia.
Qed.

Lemma filtered_seq_sorted (p : nat -> bool) (n a : nat) :
  StronglySorted Z.lt (map Z.of_nat (filter p (seq a n))).
Proof.
  revert a. induction n as [|n IH]; intros a; simpl; [constructor |].
  destruct (p a); [| apply IH]. simpl. constructor; [apply IH |].
  apply Forall_map, Forall_forall. intros i Hi.
  apply filter_In in Hi. destruct Hi as [Hi _]. apply in_seq in Hi. lia.
Qed.

(** X7.  A report left by a batch run is never the roll-up of an empty
    list: the units it was computed from are at least one and at most as
    many as were submitted, and it counts exactly those units. *)
Theorem orchestrated_report_covers_kept_units (b : Batch) (invoke : Client) (s : State.t)
    (report : CombinedAnalysisResult.t) :
  submitted b s <> [] ->
  State.combinedResults (orchestrate b invoke s) = Some report ->
  CombinedAnalysisResult.frameResults report <> [] /\
  CombinedAnalysisResult.totalFramesAnalyzed report
  = length (CombinedAnalysisResult.frameResults report) /\
  (1 <= CombinedAnalysisResult.totalFramesAnalyzed report <= length (submitted b s))%nat.
Proof.
  intros Hne Hrep. destruct (orchestrate_report b invoke s report Hne Hrep) as [Hk ->].
  pose proof (keptAt_length invoke (submitted b s) (seq 0 (length (submitted b s)))) as Hlen.
  rewrite length_seq in Hlen. fold (keptOf b invoke s) in Hlen.
  assert (Hfr : CombinedAnalysisResult.frameResults (combineOf b (keptOf b invoke s))
                = keptOf b invoke s) by (destruct b; reflexivity).
  assert (Htot : CombinedAnalysisResult.totalFramesAnalyzed (combineOf b (keptOf b invoke s))
                 = length (keptOf b invoke s)) by (destruct b; reflexivity).
  rewrite Hfr, Htot. split; [exact Hk | split; [reflexivity |]].
  destruct (keptOf b invoke s); [congruence | simpl in *; lia].
Qed.

Lemma orchestrated_report_covers_kept_units_example :
  exists report,
    State.combinedResults
      (orchestrate Images Scenario.partialClient (Scenario.initial Scenario.fourImages []))
    = Some report /\
    (1 <= CombinedAnalysisResult.totalFramesAnalyzed report <= 4)%nat.
Proof.
  exists (combineImageResults Scenario.partialResults).
  destruct (orchestrated_report_covers_kept_units Images Scenario.partialClient
              (Scenario.initial Scenario.fourImages [])
              (combineImageResults Scenario.partialResults))
    as (_ & _ & Hcount); [discriminate | reflexivity |].
  split; [reflexivity | exact Hcount].
Defined.

(** X8.  In a report left by a batch run the units appear in order of
    submission, each at most once, and each retains the image that was
    submitted at its position. *)
Theorem orchestrated_units_keep_position_and_image (b : Batch) (invoke : Client) (s : State.t)
    (report : CombinedAnalysisResult.t) :
  submitted b s <> [] ->
  State.combinedResults (orchestrate b invoke s) = Some report ->
  StronglySorted Z.lt
    (map FrameAnalysisResult.frameIndex (CombinedAnalysisResult.frameResults report)) /\
  Forall (fun f => exists i,
              (i < length (submitted b s))%nat /\
              FrameAnalysisResult.frameIndex f = Z.of_nat i /\
              nth_error (submitted b s) i = Some (FrameAnalysisResult.frameImage f) /\
              outcomeAt invoke (submitted b s) i
              = Resolves (Some (DataResult (FrameAnalysisResult.base f))) None)
         (CombinedAnalysisResult.frameResults report).
Proof.
  intros Hne Hrep. destruct (orchestrate_report b invoke s report Hne Hrep) as [_ ->].
  assert (Hfr : CombinedAnalysisResult.frameResults (combineOf b (keptOf b invoke s))
                = keptOf b invoke s) by (destruct b; reflexivity).
  rewrite Hfr. unfold keptOf. split.
  - rewrite keptAt_frameIndex. apply filtered_seq_sorted.
  - generalize (seq 0 (length (submitted b s))) (fun i => proj1 (in_seq (length (submitted b s)) 0 i)).
    intros positions Hpos.
    induction positions as [|i rest IH]; simpl; [constructor |].
    apply Forall_app. split.
    + unfold keptAt. destruct (outcomeAt invoke (submitted b s) i)
        as [thrown | [[? | r] |] [e |]] eqn:E; constructor; [| constructor].
      exists i. simpl. assert (Hi : (i < length (submitted b s))%nat).
      { specialize (Hpos i (or_introl eq_refl)). lia. }
      repeat split; [exact Hi | | exact E].
      apply nth_error_nth'. exact Hi.
    + apply IH. intros j Hj. apply Hpos. now right.
Qed.

Lemma orchestrated_units_example :
  let report := combineImageResults Scenario.partialResults in
  State.combinedResults
    (orchestrate Images Scenario.partialClient (Scenario.initial Scenario.fourImages []))
  = Some report /\
  StronglySorted Z.lt
    (map FrameAnalysisResult.frameIndex (CombinedAnalysisResult.frameResults report)) /\
  map FrameAnalysisResult.frameImage (CombinedAnalysisResult.frameResults report)
  = ["img0"; "img2"].
Proof.
  destruct (orchestrated_units_keep_position_and_image Images Scenario.partialClient
              (Scenario.initial Scenario.fourImages [])
              (combineImageResults Scenario.partialResults))
    as (Hsorted & _); [discriminate | reflexivity |].
  split; [reflexivity | split; [exact Hsorted | reflexivity]].
Defined.

Section MoreOnTheLoop.

Variable noun : string.
Variable invoke : Client.
Variable units : list string.

Lemma sameMedia_trans s1 s2 s3 : sameMedia s1 s2 -> sameMedia s2 s3 -> sameMedia s1 s3.
Proof.
  unfold sameMedia. intros (A1 & A2 & A3 & A4) (B1 & B2 & B3 & B4).
  repeat split; congruence.
Qed.

Lemma analyzeUnit_sameMedia i acc s :
  sameMedia s (snd (analyzeUnit noun invoke units i acc s)).
Proof.
  destruct (outcomeAt invoke units i) as [thrown | data [e |]] eqn:E.
  - rewrite (analyzeUnit_rejects _ _ _ _ _ _ _ E). repeat split.
  - rewrite (analyzeUnit_error _ _ _ _ _ _ _ _ E). repeat split.
  - rewrite (analyzeUnit_no_error _ _ _ _ _ _ _ E). repeat split.
Qed.

Lemma analyzeLoop_sameMedia positions acc s :
  sameMedia s (snd (analyzeLoop noun invoke units positions acc s)).
Proof.
  revert acc s. induction positions as [|i rest IH]; intros acc s; simpl.
  - repeat split.
  - pose proof (analyzeUnit_sameMedia i acc s) as Hu.
    destruct (analyzeUnit noun invoke units i acc s) as [[acc' | thrown] s']; simpl in *.
    + eapply sameMedia_trans; [exact Hu | apply IH].
    + exact Hu.
Qed.

Lemma analyzeLoop_app ps qs acc s :
  analyzeLoop noun invoke units (ps ++ qs) acc s
  = match analyzeLoop noun invoke units ps acc s with
    | (Normal acc', s') => analyzeLoop noun invoke units qs acc' s'
    | (Throw thrown, s') => (Throw thrown, s')
    end.
Proof.
  revert acc s. induction ps as [|i ps IH]; intros acc s; simpl; [reflexivity |].
  destruct (analyzeUnit noun invoke units i acc s) as [[acc' | thrown] s']; [apply IH | reflexivity].
Qed.

(** A rejected call ends the loop on the spot: the units before it have
    been visited, the ones after it are not. *)
Lemma analyzeLoop_rejects before k after thrown acc s :
  (forall i, In i before -> rejected (outcomeAt invoke units i) = false) ->
  outcomeAt invoke units k = Rejects thrown ->
  exists s',
    analyzeLoop noun invoke units (before ++ k :: after) acc s = (Throw thrown, s') /\
    State.requests s' = State.requests s ++ map (fun i => nth i units "") (before ++ [k]) /\
    State.console s' = State.console s ++ flat_map (errorLine noun invoke units) before.
Proof.
  intros Hres Hk.
  destruct (analyzeLoop_resolves noun invoke units before acc s Hres)
    as (s1 & Hloop & Hreq & Hcon & _).
  rewrite analyzeLoop_app, Hloop. simpl.
  rewrite (analyzeUnit_rejects _ _ _ _ _ _ _ Hk).
  eexists. split; [reflexivity |]. simpl. rewrite Hreq, Hcon, map_app, <- app_assoc.
  split; reflexivity.
Qed.

(** The progress the loop shows is the one it started with or the share of
    one of the positions it visited. *)
Lemma analyzeLoop_progress positions acc s :
  let s' := snd (analyzeLoop noun invoke units positions acc s) in
  State.analysisProgress s' = State.analysisProgress s \/
  exists j, In j positions /\ State.analysisProgress s' = percentage j (length units).
Proof.
  revert acc s. induction positions as [|i rest IH]; intros acc s; simpl; [now left |].
  destruct (outcomeAt invoke units i) as [thrown | data [e |]] eqn:E.
  - rewrite (analyzeUnit_rejects _ _ _ _ _ _ _ E). now left.
  - rewrite (analyzeUnit_error _ _ _ _ _ _ _ _ E).
    match goal with
    | |- context [analyzeLoop _ _ _ rest ?a ?st] => destruct (IH a st) as [H | (j & Hj & H)]
    end.
    + left. rewrite H. reflexivity.
    + right. exists j. split; [now right | exact H].
  - rewrite (analyzeUnit_no_error _ _ _ _ _ _ _ E).
    match goal with
    | |- context [analyzeLoop _ _ _ rest ?a ?st] => destruct (IH a st) as [H | (j & Hj & H)]
    end.
    + right. exists i. split; [now left | rewrite H; reflexivity].
    + right. exists j. split; [now right | exact H].
Qed.

End MoreOnTheLoop.

Lemma find_split {A : Type} (p : A -> bool) (xs : list A) (x : A) :
  find p xs = Some x ->
  exists before after,
    xs = before ++ x :: after /\ Forall (fun y => p y = false) before /\ p x = true.
Proof.
  induction xs as [|y xs IH]; simpl; [discriminate |].
  destruct (p y) eqn:E.
  - intros [= ->]. exists [], xs. repeat split; [constructor | exact E].
  - intros H. destruct (IH H) as (before & after & -> & Hall & Hx).
    exists (y :: before), after. repeat split; [constructor; assumption | exact Hx].
Qed.

Lemma seq_split_from (a n k : nat) (before after : list nat) :
  seq a n = before ++ k :: after ->
  before = seq a (length before) /\ k = (a + length before)%nat /\ (length before < n)%nat.
Proof.
  revert a n. induction before as [|b before IH]; intros a n H; simpl in *.
  - destruct n as [|n]; [discriminate |]. simpl in H. injection H as -> _.
    repeat split; lia.
  - destruct n as [|n]; [discriminate |]. simpl in H. injection H as <- H.
    destruct (IH _ _ H) as (Hb & Hk & Hn).
    repeat split; [f_equal; exact Hb | lia | lia].
Qed.

Lemma seq_split_at (n k : nat) (before after : list nat) :
  seq 0 n = before ++ k :: after -> before = seq 0 k /\ (k < n)%nat.
Proof.
  intros H. destruct (seq_split_from _ _ _ _ _ H) as (Hb & Hk & Hn).
  simpl in Hk. subst k. split; assumption.
Qed.

Lemma map_nth_seq_firstn (units : list string) (m : nat) :
  (m <= length units)%nat ->
  map (fun i => nth i units "") (seq 0 m) = firstn m units.
Proof.
  revert m. induction units as [|u units IH]; intros m Hm; simpl in Hm.
  - assert (m = 0%nat) by lia. subst. reflexivity.
  - destruct m as [|m]; [reflexivity |]. simpl. f_equal.
    rewrite <- seq_shift, map_map. apply IH. lia.
Qed.

Lemma firstRejection_none (invoke : Client) (units : list string) :
  firstRejection invoke units = None ->
  forall i, In i (seq 0 (length units)) -> rejected (outcomeAt invoke units i) = false.
Proof.
  unfold firstRejection. intros H i Hi.
  pose proof (find_none _ _ H i Hi) as Hn. exact Hn.
Qed.

Lemma firstRejection_some (invoke : Client) (units : list string) (k : nat) :
  firstRejection invoke units = Some k ->
  exists after thrown,
    seq 0 (length units) = seq 0 k ++ k :: after /\
    (k < length units)%nat /\
    (forall i, In i (seq 0 k) -> rejected (outcomeAt invoke units i) = false) /\
    outcomeAt invoke units k = Rejects thrown.
Proof.
  unfold firstRejection. intros H.
  destruct (find_split _ _ _ H) as (before & after & Hsplit & Hall & Hk).
  destruct (seq_split_at _ _ _ _ Hsplit) as [-> Hlt].
  destruct (outcomeAt invoke units k) as [thrown |] eqn:E; [| discriminate].
  exists after, thrown. repeat split; try assumption.
  intros i Hi. rewrite Forall_forall in Hall. apply Hall, Hi.
Qed.

Lemma percentage_bounds (j n : nat) :
  (j < n)%nat -> (0 <= percentage j n)%Q /\ (percentage j n <= 100)%Q.
Proof.
  intros H. unfold percentage.
  assert (Hn : (0 < inject_Z (Z.of_nat n))%Q).
  { change 0%Q with (inject_Z 0). rewrite <- Zlt_Qlt. lia. }
  assert (Hj : (0 <= inject_Z (Z.of_nat j + 1))%Q).
  { change 0%Q with (inject_Z 0). rewrite <- Zle_Qle. lia. }
  assert (Hjn : (inject_Z (Z.of_nat j + 1) <= inject_Z (Z.of_nat n))%Q).
  { rewrite <- Zle_Qle. lia. }
  set (a := inject_Z (Z.of_nat j + 1)) in *. set (b := inject_Z (Z.of_nat n)) in *.
  assert (Hq : (0 <= a / b)%Q /\ (a / b <= 1)%Q).
  { split.
    - apply Qle_shift_div_l; [exact Hn | lra].
    - apply Qle_shift_div_r; [exact Hn | lra]. }
  destruct Hq. split; lra.
Qed.

(** X9.  While a batch is analysed the progress never leaves the range of
    0 to 100 percent: after every unit it is the value the loop started
    with or a share of the batch. *)
Theorem progress_stays_within_bounds
    (noun : string) (invoke : Client) (units : list string) (k : nat) (s : State.t) :
  (k < length units)%nat ->
  (0 <= State.analysisProgress s)%Q ->
  (State.analysisProgress s <= 100)%Q ->
  let s' := afterUnit noun invoke units k s in
  (0 <= State.analysisProgress s')%Q /\ (State.analysisProgress s' <= 100)%Q.
Proof.
  intros Hk H0 H100 s'. subst s'. unfold afterUnit.
  destruct (analyzeLoop_progress noun invoke units (seq 0 (S k)) [] s) as [H | (j & Hj & H)];
    rewrite H.
  - split; assumption.
  - apply percentage_bounds. apply in_seq in Hj. lia.
Qed.

Lemma progress_stays_within_bounds_example :
  let s' := afterUnit "image" Scenario.partialClient Scenario.fourImages 2
              (Scenario.initial Scenario.fourImages []) in
  (State.analysisProgress s' == 75)%Q /\
  (0 <= State.analysisProgress s')%Q /\ (State.analysisProgress s' <= 100)%Q.
Proof.
  split; [reflexivity |].
  apply (progress_stays_within_bounds "image" Scenario.partialClient Scenario.fourImages 2
           (Scenario.initial Scenario.fourImages [])).
  - simpl. lia.
  - simpl. lra.
  - simpl. lra.
Defined.

Lemma analyzeLoop_requests (noun : string) (invoke : Client) (units : list string)
    (acc : list FrameAnalysisResult.t) (s : State.t) :
  State.requests (snd (analyzeLoop noun invoke units (seq 0 (length units)) acc s))
  = State.requests s ++ firstn (requestCount invoke units) units.
Proof.
  unfold requestCount. destruct (firstRejection invoke units) as [k |] eqn:E.
  - destruct (firstRejection_some _ _ _ E) as (after & thrown & Hsplit & Hk & Hres & Hrej).
    destruct (analyzeLoop_rejects noun invoke units (seq 0 k) k after thrown acc s Hres Hrej)
      as (s' & Hloop & Hreq & _).
    rewrite Hsplit, Hloop. simpl. rewrite Hreq. f_equal.
    change (seq 0 k ++ [k]) with (seq 0 k ++ [(0 + k)%nat]). rewrite <- seq_S.
    apply map_nth_seq_firstn. lia.
  - destruct (analyzeLoop_resolves noun invoke units (seq 0 (length units)) acc s
                (firstRejection_none _ _ E))
      as (s' & Hloop & Hreq & _).
    rewrite Hloop. simpl. rewrite Hreq, map_nth_seq_self, firstn_all. reflexivity.
Qed.

(** X10.  A batch run sends its requests in the order of submission, one
    per unit and none twice, and stops sending at the first call that
    rejects: the requests it adds are a prefix of the submitted units. *)
Theorem requests_follow_submission_order (b : Batch) (invoke : Client) (s : State.t) :
  State.requests (orchestrate b invoke s)
  = State.requests s ++ firstn (requestCount invoke (submitted b s)) (submitted b s).
Proof.
  destruct b; simpl orchestrate; simpl submitted.
  - unfold analyzeAllImages.
    destruct (Nat.eqb_spec (length (State.uploadedImages s)) 0) as [E0 | _].
    { apply length_zero_iff_nil in E0. rewrite E0. simpl. now rewrite app_nil_r. }
    cbv zeta.
    match goal with
    | |- context [analyzeLoop ?n ?c ?u ?p ?a ?st] =>
        pose proof (analyzeLoop_requests n c u a st) as Hreq;
        destruct (analyzeLoop n c u p a st) as [[acc | thrown] s1]
    end; simpl in Hreq.
    + destruct (length acc =? 0)%nat; simpl; exact Hreq.
    + simpl. exact Hreq.
  - unfold analyzeAllFrames.
    destruct (Nat.eqb_spec (length (State.videoFrames s)) 0) as [E0 | _].
    { apply length_zero_iff_nil in E0. rewrite E0. simpl. now rewrite app_nil_r. }
    cbv zeta.
    match goal with
    | |- context [analyzeLoop ?n ?c ?u ?p ?a ?st] =>
        pose proof (analyzeLoop_requests n c u a st) as Hreq;
        destruct (analyzeLoop n c u p a st) as [[acc | thrown] s1]
    end; simpl in Hreq.
    + destruct (length acc =? 0)%nat; simpl; exact Hreq.
    + simpl. exact Hreq.
Qed.

(** X11.  A call that rejects aborts the whole batch, whatever the units
    before it returned: no report is produced, no aggregator is called, and
    the run shows one destructive notice that carries the message of the
    thrown error. *)
Theorem rejected_call_aborts_the_batch
    (b : Batch) (invoke : Client) (s : State.t) (k : nat) (thrown : Thrown) :
  firstRejection invoke (submitted b s) = Some k ->
  outcomeAt invoke (submitted b s) k = Rejects thrown ->
  let s' := orchestrate b invoke s in
  State.combinedResults s' = None /\
  State.aggregations s' = State.aggregations s /\
  State.toasts s'
  = State.toasts s
    ++ [ {| Toast.title := "Analysis Failed";
            Toast.description :=
              match thrown with
              | ErrorValue message => message
              | OtherValue => fallbackNotice b
              end;
            Toast.variant := Some "destructive" |} ].
Proof.
  intros Hfirst Hrej.
  destruct (firstRejection_some _ _ _ Hfirst) as (after & thrown' & Hsplit & Hk & Hres & Hrej').
  rewrite Hrej in Hrej'. injection Hrej' as <-.
  assert (Hne : submitted b s <> []) by (intros E; rewrite E in Hk; simpl in Hk; lia).
  destruct b; simpl orchestrate; simpl submitted in *; cbv zeta.
  - unfold analyzeAllImages.
    destruct (Nat.eqb_spec (length (State.uploadedImages s)) 0) as [E0 | _]; [lia |].
    cbv zeta. rewrite Hsplit.
    match goal with
    | |- context [analyzeLoop ?n ?c ?u (?p ++ k :: after) ?a ?st] =>
        pose proof (analyzeLoop_untouched n c u (p ++ k :: after) a st) as (Ht & Ha & Hc & _);
        destruct (analyzeLoop_rejects n c u p k after thrown a st Hres Hrej) as (s1 & Hloop & _)
    end.
    rewrite Hloop in *. simpl in Ht, Ha, Hc |- *. rewrite Ht, Ha, Hc. repeat split.
  - unfold analyzeAllFrames.
    destruct (Nat.eqb_spec (length (State.videoFrames s)) 0) as [E0 | _]; [lia |].
    cbv zeta. rewrite Hsplit.
    match goal with
    | |- context [analyzeLoop ?n ?c ?u (?p ++ k :: after) ?a ?st] =>
        pose proof (analyzeLoop_untouched n c u (p ++ k :: after) a st) as (Ht & Ha & Hc & _);
        destruct (analyzeLoop_rejects n c u p k after thrown a st Hres Hrej) as (s1 & Hloop & _)
    end.
    rewrite Hloop in *. simpl in Ht, Ha, Hc |- *. rewrite Ht, Ha, Hc. repeat split.
Qed.

(** Three images, the call for the second one rejecting: the first unit
    succeeded and the third one would have, yet there is no report, and only
    two requests were sent. *)
Lemma rejected_call_example :
  let s' := orchestrate Images Upload.abortingClient (Scenario.initial Upload.threeImages []) in
  succeeded (outcomeAt Upload.abortingClient Upload.threeImages 0) = true /\
  succeeded (outcomeAt Upload.abortingClient Upload.threeImages 2) = true /\
  State.combinedResults s' = None /\
  map Toast.description (State.toasts s') = ["Failed to fetch"] /\
  State.requests s' = ["img0"; "img1"].
Proof.
  destruct (rejected_call_aborts_the_batch Images Upload.abortingClient
              (Scenario.initial Upload.threeImages []) 1 (ErrorValue "Failed to fetch")
              eq_refl eq_refl)
    as (Hrep & _ & Htoast).
  split; [reflexivity | split; [reflexivity | split; [exact Hrep | split]]].
  - rewrite Htoast. reflexivity.
  - reflexivity.
Defined.

(** X12.  However a batch run over at least one unit ends, it releases its
    in-flight flag, puts the progress and the unit counter back to 0, has
    cleared the single-image result, and has left the uploaded images, the
    video frames and the other run's flag as they were. *)
Theorem batch_run_releases_the_panel (b : Batch) (invoke : Client) (s : State.t) :
  submitted b s <> [] ->
  let s' := orchestrate b invoke s in
  inFlight b s' = false /\
  State.analysisProgress s' = 0%Q /\
  State.currentAnalyzingFrame s' = 0 /\
  State.results s' = None /\
  State.uploadedImages s' = State.uploadedImages s /\
  State.videoFrames s' = State.videoFrames s /\
  inFlight (match b with Images => Frames | Frames => Images end) s'
  = inFlight (match b with Images => Frames | Frames => Images end) s.
Proof.
  intros Hne. destruct b; simpl orchestrate; simpl submitted in *; simpl inFlight; cbv zeta.
  - unfold analyzeAllImages.
    destruct (Nat.eqb_spec (length (State.uploadedImages s)) 0) as [E0 | _].
    { apply length_zero_iff_nil in E0. contradiction. }
    cbv zeta.
    match goal with
    | |- context [analyzeLoop ?n ?c ?u ?p ?a ?st] =>
        pose proof (analyzeLoop_untouched n c u p a st) as (_ & _ & _ & Hr);
        pose proof (analyzeLoop_sameMedia n c u p a st) as (Hi & Hv & _ & Hf);
        destruct (analyzeLoop n c u p a st) as [[acc | thrown] s1]
    end; simpl in Hr, Hi, Hv, Hf.
    + destruct (length acc =? 0)%nat; simpl; rewrite Hr, Hi, Hv, Hf; repeat split.
    + simpl; rewrite Hr, Hi, Hv, Hf; repeat split.
  - unfold analyzeAllFrames.
    destruct (Nat.eqb_spec (length (State.videoFrames s)) 0) as [E0 | _].
    { apply length_zero_iff_nil in E0. contradiction. }
    cbv zeta.
    match goal with
    | |- context [analyzeLoop ?n ?c ?u ?p ?a ?st] =>
        pose proof (analyzeLoop_untouched n c u p a st) as (_ & _ & _ & Hr);
        pose proof (analyzeLoop_sameMedia n c u p a st) as (Hi & Hv & Hf & _);
        destruct (analyzeLoop n c u p a st) as [[acc | thrown] s1]
    end; simpl in Hr, Hi, Hv, Hf.
    + destruct (length acc =? 0)%nat; simpl; rewrite Hr, Hi, Hv, Hf; repeat split.
    + simpl; rewrite Hr, Hi, Hv, Hf; repeat split.
Qed.

Lemma batch_run_releases_the_panel_example :
  let s' := orchestrate Images Upload.abortingClient (Scenario.initial Upload.threeImages []) in
  State.isAnalyzingAllImages s' = false /\
  State.analysisProgress s' = 0%Q /\
  State.uploadedImages s' = Upload.threeImages.
Proof.
  destruct (batch_run_releases_the_panel Images Upload.abortingClient
              (Scenario.initial Upload.threeImages []))
    as (Hflag & Hprog & _ & _ & Himg & _); [discriminate |].
  split; [exact Hflag | split; [exact Hprog | exact Himg]].
Defined.

(** ** Further properties of the edge function *)


(** X14.  For a request that reaches the gateway, the statuses 429 and 402
    are passed on and nothing else produces them: the answer has status 429
    exactly when the gateway answered 429 and status 402 exactly when it
    answered 402.  Every other failure of the gateway call is answered with
    500, and an answer with status 200 is sent only after the gateway
    answered successfully. *)
Theorem gateway_status_is_passed_on (w : World) (req : Request) :
  reachesGateway w req ->
  (status (handler w req) = 429 <-> exists text, analysisReply w = NotOk 429 text) /\
  (status (handler w req) = 402 <-> exists text, analysisReply w = NotOk 402 text) /\
  ((exists message, analysisReply w = FetchRejects message) \/
   (exists code text, analysisReply w = NotOk code text /\ code <> 429 /\ code <> 402) ->
   status (handler w req) = 500) /\
  (status (handler w req) = 200 -> exists content, analysisReply w = Ok content).
Proof.
  intros (Hm & (image & Hj & Hi) & (key & Hk & Hkey)).
  unfold handler. rewrite Hm, Hj, Hi, Hk, Hkey. simpl.
  destruct (analysisReply w) as [m | code text | content]; simpl.
  - repeat split; try (intros H; discriminate H); try (intros [x H]; discriminate H).
  - destruct (Z.eqb_spec code 429) as [-> | H429]; simpl.
    + repeat split; try (intros H; discriminate H); try (intros [x H]; discriminate H).
      * intros _. now exists text.
      * intros [[x H] | (c & t & H & Hc & _)]; [discriminate H | injection H as <- _; congruence].
    + destruct (Z.eqb_spec code 402) as [-> | H402]; simpl.
      * repeat split; try (intros H; discriminate H); try (intros [x H]; discriminate H).
        -- intros _. now exists text.
        -- intros [[x H] | (c & t & H & _ & Hc)]; [discriminate H | injection H as <- _; congruence].
      * repeat split; try (intros H; discriminate H); try (intros [x H]; discriminate H).
        -- intros [x H]. injection H as -> _. congruence.
        -- intros [x H]. injection H as -> _. congruence.
  - repeat split; try (intros H; discriminate H); try (intros [x H]; discriminate H).
    + intros [[x H] | (c & t & H & _)]; discriminate H.
    + intros _. now exists content.
Qed.

Lemma gateway_status_example :
  let w := mkWorld (Some "key") Scenario.parser (NotOk 429 "slow down") EditNotOk in
  reachesGateway w Scenario.post /\
  status (handler w Scenario.post) = 429.
Proof.
  assert (Hr : reachesGateway
                 (mkWorld (Some "key") Scenario.parser (NotOk 429 "slow down") EditNotOk)
                 Scenario.post).
  { split; [reflexivity | split; eexists; split; reflexivity]. }
  split; [exact Hr |].
  destruct (gateway_status_is_passed_on _ _ Hr) as ([_ H429] & _).
  exact (H429 (ex_intro _ "slow down" eq_refl)).
Defined.

(** X15.  An answer carries an annotated image exactly when the analysis
    reports a vehicle, damage and at least one damage item, and the
    annotation call returned a non-empty image. *)
Theorem annotation_only_for_reported_damage
    (w : World) (req : Request) (st : Z) (result : AnalysisResult.t) (url : string) :
  handler w req = mkResponse st (ResultBody result) ->
  (AnalysisResult.annotatedImage result = Some url <->
   AnalysisResult.hasVehicle result = true /\
   AnalysisResult.hasDamage result = true /\
   AnalysisResult.damages result <> [] /\
   editReply w = EditOk (Some url) /\
   url <> "").
Proof.
  unfold handler.
  destruct (method req =? "OPTIONS")%string; [discriminate |].
  destruct (json req) as [m | [image |]]; try discriminate.
  destruct (negb (JS.truthy image)); [discriminate |].
  destruct (LOVABLE_API_KEY w) as [key |]; [| discriminate].
  destruct (negb (JS.truthy key)); [discriminate |].
  destruct (analysisReply w) as [m | code text | content].
  - discriminate.
  - destruct (code =? 429); [discriminate |]. destruct (code =? 402); discriminate.
  - intros [= _ <-]. simpl. unfold annotate.
    set (r := parseAnalysis w content).
    destruct (AnalysisResult.hasVehicle r); simpl;
      [| split; [discriminate | intros (H & _); discriminate H]].
    destruct (AnalysisResult.hasDamage r); simpl;
      [| split; [discriminate | intros (_ & H & _); discriminate H]].
    destruct (AnalysisResult.damages r) as [|d ds]; simpl;
      [split; [discriminate | intros (_ & _ & H & _); congruence] |].
    destruct (editReply w) as [| | [u |]];
      try (split; [discriminate | intros (_ & _ & _ & H & _); discriminate H]).
    unfold JS.truthy. destruct (String.eqb_spec u "") as [-> | Hu]; simpl.
    + split; [discriminate | intros (_ & _ & _ & H & Hne)]. injection H as <-. congruence.
    + split.
      * intros [= <-]. repeat split; congruence.
      * intros (_ & _ & _ & H & _). injection H as <-. reflexivity.
Qed.

Lemma annotation_example :
  let w := mkWorld (Some "key") (fun _ => Some Scenario.severeDent) (Ok (Some "{}"))
             (EditOk (Some "data:image/png;base64,BBBB")) in
  exists result,
    handler w Scenario.post = mkResponse 200 (ResultBody result) /\
    AnalysisResult.annotatedImage result = Some "data:image/png;base64,BBBB".
Proof.
  eexists. split; [reflexivity |].
  apply (annotation_only_for_reported_damage
           (mkWorld (Some "key") (fun _ => Some Scenario.severeDent) (Ok (Some "{}"))
              (EditOk (Some "data:image/png;base64,BBBB")))
           Scenario.post 200 _ "data:image/png;base64,BBBB" eq_refl).
  repeat split; discriminate.
Defined.

(** X16.  The annotation step cannot fail an analysis: whatever the
    annotation call returns, the status of the answer and everything in its
    body but the annotated image stay the same. *)
Theorem annotation_failure_is_not_fatal (w : World) (req : Request) (reply : EditReply) :
  status (handler (withEditReply w reply) req) = status (handler w req) /\
  withoutAnnotation (body (handler (withEditReply w reply) req))
  = withoutAnnotation (body (handler w req)).
Proof.
  unfold handler, withEditReply. simpl.
  destruct (method req =? "OPTIONS")%string; [split; reflexivity |].
  destruct (json req) as [m | [image |]]; try (split; reflexivity).
  destruct (negb (JS.truthy image)); [split; reflexivity |].
  destruct (LOVABLE_API_KEY w) as [key |]; [| split; reflexivity].
  destruct (negb (JS.truthy key)); [split; reflexivity |].
  destruct (analysisReply w) as [m | code text | content]; split; reflexivity.
Qed.

(** ** Trimming and fence stripping *)

Section Strings.

Local Open Scope string_scope.

Lemma sappend_assoc (a b c : string) : (a ++ b) ++ c = a ++ (b ++ c).
Proof. induction a as [|x a IH]; simpl; [reflexivity | now rewrite IH]. Qed.

Lemma sappend_nil_r (a : string) : a ++ "" = a.
Proof. induction a as [|x a IH]; simpl; [reflexivity | now rewrite IH]. Qed.

Lemma rev_string_acc (s acc : string) : rev_string s acc = rev_string s "" ++ acc.
Proof.
  revert acc. induction s as [|c s IH]; intros acc; simpl; [reflexivity |].
  rewrite (IH (String c acc)), (IH (String c "")), sappend_assoc. reflexivity.
Qed.

Lemma rev_string_app (a b : string) :
  rev_string (a ++ b) "" = rev_string b "" ++ rev_string a "".
Proof.
  induction a as [|c a IH]; simpl; [now rewrite sappend_nil_r |].
  rewrite (rev_string_acc (a ++ b)), (rev_string_acc a), IH, sappend_assoc. reflexivity.
Qed.

Lemma rev_string_involutive (s : string) : rev_string (rev_string s "") "" = s.
Proof.
  induction s as [|c s IH]; simpl; [reflexivity |].
  rewrite (rev_string_acc s), rev_string_app, IH. reflexivity.
Qed.

Lemma trimStart_head (s : string) (c : ascii) (t : string) :
  trimStart s = String c t -> is_space c = false.
Proof.
  induction s as [|d s IH]; simpl; [discriminate |].
  destruct (is_space d) eqn:E; [exact IH |]. intros [= <- _]. exact E.
Qed.

Lemma trimStart_idempotent (s : string) : trimStart (trimStart s) = trimStart s.
Proof.
  induction s as [|d s IH]; simpl; [reflexivity |].
  destruct (is_space d) eqn:E; [exact IH |]. simpl. now rewrite E.
Qed.

Lemma trimStart_snoc (x : string) (c : ascii) :
  is_space c = false -> trimStart (x ++ String c "") = trimStart x ++ String c "".
Proof.
  intros Hc. induction x as [|d x IH]; simpl; [now rewrite Hc |].
  destruct (is_space d); [exact IH | reflexivity].
Qed.

Lemma trim_of_trimmed (s : string) : trimmed s -> trim s = s.
Proof.
  intros [Hs He]. unfold trim, trimEnd. rewrite Hs, He. apply rev_string_involutive.
Qed.

Lemma trim_is_trimmed (s : string) : trimmed (trim s).
Proof.
  unfold trimmed, trim, trimEnd. split.
  - destruct (trimStart s) as [|c t] eqn:E; [reflexivity |].
    pose proof (trimStart_head _ _ _ E) as Hc.
    assert (Hrev : rev_string (trimStart (rev_string (String c t) "")) ""
                   = String c (rev_string (trimStart (rev_string t "")) "")).
    { simpl. rewrite (rev_string_acc t), (trimStart_snoc _ _ Hc), rev_string_app.
      reflexivity. }
    rewrite Hrev. simpl. now rewrite Hc.
  - rewrite rev_string_involutive. apply trimStart_idempotent.
Qed.

(** [trim] yields a text that neither starts nor ends with white
    space, leaves such a text as it is, and so is idempotent. *)
Theorem trim_is_idempotent (s : string) :
  trimmed (trim s) /\ trim (trim s) = trim s /\ (trimmed s -> trim s = s).
Proof.
  split; [apply trim_is_trimmed | split; [| apply trim_of_trimmed]].
  apply trim_of_trimmed, trim_is_trimmed.
Qed.

Lemma trim_example :
  trimmed "{}" /\ trim "  {}  " = "{}" /\ trim "{}" = "{}".
Proof.
  assert (H : trimmed "{}") by (split; reflexivity).
  split; [exact H | split; [reflexivity |]].
  exact (proj2 (proj2 (trim_is_idempotent "{}")) H).
Defined.

Lemma not_backtick (c : ascii) : is_backtick c = false -> "`"%char <> c.
Proof.
  intros H <-. discriminate H.
Qed.

Lemma index_fence_skip (c : ascii) (s : string) :
  is_backtick c = false ->
  index 0 fence (String c s)
  = match index 0 fence s with
    | Some n => Some (S n)
    | None => None
    end.
Proof.
  intros Hc. apply not_backtick in Hc. unfold fence. cbn [index prefix].
  destruct (ascii_dec "`" c) as [E | _]; [contradiction | reflexivity].
Qed.

Lemma no_fence_without_backtick (s : string) :
  string_forall (fun c => negb (is_backtick c)) s = true -> index 0 fence s = None.
Proof.
  induction s as [|c s IH]; [reflexivity |].
  cbn [string_forall]. intros H. apply andb_true_iff in H. destruct H as [Hc Hs].
  apply negb_true_iff in Hc. now rewrite (index_fence_skip _ _ Hc), (IH Hs).
Qed.

Lemma fence_after_clean_text (a r : string) :
  string_forall (fun c => negb (is_backtick c)) a = true ->
  index 0 fence (a ++ fence ++ r) = Some (String.length a).
Proof.
  induction a as [|c a IH].
  - intros _. unfold fence. cbn [append index String.length].
    assert (E : prefix "```" (String "`" (String "`" (String "`" r))) = true)
      by (apply prefix_correct; destruct r; reflexivity).
    now rewrite E.
  - cbn [string_forall append String.length]. intros H.
    apply andb_true_iff in H. destruct H as [Hc Ha].
    apply negb_true_iff in Hc. now rewrite (index_fence_skip _ _ Hc), (IH Ha).
Qed.

Lemma substring_all (s : string) : substring 0 (String.length s) s = s.
Proof. induction s as [|c s IH]; simpl; [reflexivity | now rewrite IH]. Qed.

Lemma substring_head (a b : string) : substring 0 (String.length a) (a ++ b) = a.
Proof.
  induction a as [|c a IH]; simpl; [destruct b; reflexivity | now rewrite IH].
Qed.

Lemma after_fence (a r : string) : after (String.length a + 3) (a ++ fence ++ r) = r.
Proof.
  unfold after. induction a as [|c a IH]; simpl.
  - rewrite Nat.sub_0_r. apply substring_all.
  - exact IH.
Qed.

Lemma string_forall_app (p : ascii -> bool) (a b : string) :
  string_forall p (a ++ b) = string_forall p a && string_forall p b.
Proof.
  induction a as [|c a IH]; simpl; [reflexivity | now rewrite IH, andb_assoc].
Qed.

Lemma trimStart_length (s : string) : (String.length (trimStart s) <= String.length s)%nat.
Proof.
  induction s as [|c s IH]; simpl; [lia |].
  destruct (is_space c); simpl; lia.
Qed.

Lemma trimStart_app_trimmed (d x : string) :
  trimStart d = d -> d <> "" -> trimStart (d ++ x) = d ++ x.
Proof.
  destruct d as [|c d]; [congruence |]. simpl. intros H _.
  destruct (is_space c); [| reflexivity].
  pose proof (trimStart_length d) as Hl. rewrite H in Hl. simpl in Hl. lia.
Qed.

(** X17.  An answer without a back-tick goes to the parser as it is. *)
Theorem unfenced_answer_is_parsed_verbatim (text : string) :
  string_forall (fun c => negb (is_backtick c)) text = true ->
  jsonStrOf text = text.
Proof.
  intros H. unfold jsonStrOf, match_fence. now rewrite (no_fence_without_backtick _ H).
Qed.

Lemma unfenced_answer_example : jsonStrOf "  not JSON " = "  not JSON ".
Proof.
  apply unfenced_answer_is_parsed_verbatim. reflexivity.
Defined.

(** X18.  A document of ASCII characters wrapped in a json code fence is
    recovered exactly, whatever prose surrounds the fence, provided the
    document and the lead-in hold no back-tick and the document neither
    starts nor ends with white space.  (Outside the ASCII range JavaScript
    knows further white space, which [is_space] does not model.) *)
Theorem fenced_document_is_recovered (before document after : string) :
  string_forall is_ascii document = true ->
  string_forall (fun c => negb (is_backtick c)) before = true ->
  string_forall (fun c => negb (is_backtick c)) document = true ->
  trimmed document ->
  jsonStrOf (fenced before document after) = document.
Proof.
  intros _ Hb Hd [Hs He]. unfold jsonStrOf, match_fence, fenced.
  change ("```json" ++ Scenario.newline ++ document ++ Scenario.newline ++ "```" ++ after)
    with (fence ++ "json" ++ Scenario.newline ++ document ++ Scenario.newline ++ fence ++ after).
  rewrite (fence_after_clean_text _ _ Hb), after_fence.
  simpl prefix. cbv iota.
  change (EdgeFunction.after 4
            ("json" ++ Scenario.newline ++ document ++ Scenario.newline ++ fence ++ after))
    with (substring 0
            (String.length (Scenario.newline ++ document ++ Scenario.newline ++ fence ++ after))
            (Scenario.newline ++ document ++ Scenario.newline ++ fence ++ after)).
  rewrite substring_all.
  change (trimStart (Scenario.newline ++ document ++ Scenario.newline ++ fence ++ after))
    with (trimStart (document ++ Scenario.newline ++ fence ++ after)).
  destruct document as [|c d] eqn:Edoc.
  - change (trimStart ("" ++ Scenario.newline ++ fence ++ after)) with ("" ++ fence ++ after).
    rewrite (fence_after_clean_text "" after eq_refl).
    destruct after; reflexivity.
  - rewrite <- Edoc in *.
    assert (Hne : document <> "") by (rewrite Edoc; discriminate).
    rewrite (trimStart_app_trimmed _ _ Hs Hne).
    rewrite <- (sappend_assoc document Scenario.newline).
    assert (Hclean : string_forall (fun c => negb (is_backtick c)) (document ++ Scenario.newline)
                     = true).
    { rewrite string_forall_app, Hd. reflexivity. }
    rewrite (fence_after_clean_text _ _ Hclean), substring_head.
    unfold trim, trimEnd.
    assert (Hne' : document ++ Scenario.newline <> "") by (rewrite Edoc; discriminate).
    rewrite (trimStart_app_trimmed _ _ Hs Hne), rev_string_app.
    change (trimStart (rev_string Scenario.newline "" ++ rev_string document ""))
      with (trimStart (rev_string document "")).
    rewrite He. apply rev_string_involutive.
Qed.

Lemma fenced_document_example :
  fenced "Here is the analysis:" "{}" " Let me know." <> "{}" /\
  jsonStrOf (fenced "Here is the analysis:" "{}" " Let me know.") = "{}".
Proof.
  split; [discriminate |].
  apply fenced_document_is_recovered;
    [reflexivity | reflexivity | reflexivity | split; reflexivity].
Defined.

End Strings.

(** ** Media ingestion *)

Lemma readAll_urls (files : list File.t) :
  Forall (fun f => File.dataUrl f <> None) files -> readAll files = Some (urls files).
Proof.
  induction 1 as [|f files Hf _ IH]; simpl; [reflexivity |].
  destruct (File.dataUrl f) as [url |]; [| congruence]. now rewrite IH.
Qed.

Lemma urls_length (files : list File.t) :
  Forall (fun f => File.dataUrl f <> None) files -> length (urls files) = length files.
Proof.
  induction 1 as [|f files Hf _ IH]; simpl; [reflexivity |].
  destruct (File.dataUrl f) as [url |]; [| congruence]. simpl. now rewrite IH.
Qed.

(** X19.  From a selection of several readable files the panel keeps the
    images, all of them and in order, and drops every other file; it shows
    the first image, and it holds neither a video nor frames nor an earlier
    result. *)
Theorem multi_file_selection_keeps_the_images (files : list File.t) (p : Panel.t) :
  (2 <= length files)%nat ->
  Forall (fun f => File.dataUrl f <> None) files ->
  filter isImageFile files <> [] ->
  let p' := handleFileSelect files p in
  let images := urls (filter isImageFile files) in
  State.uploadedImages (Panel.core p') = images /\
  length images = length (filter isImageFile files) /\
  Panel.mediaType p' = Some multi_image /\
  Panel.uploadedImage p' = nth_error images 0 /\
  Panel.uploadedImage p' <> None /\
  Panel.selectedImageIndex p' = 0 /\
  Panel.uploadedVideo p' = None /\
  State.videoFrames (Panel.core p') = [] /\
  State.results (Panel.core p') = None /\
  State.combinedResults (Panel.core p') = None.
Proof.
  intros Hlen Hread Hsome p' images.
  assert (Hreadable : Forall (fun f => File.dataUrl f <> None) (filter isImageFile files)).
  { rewrite Forall_forall in *. intros f Hf. apply Hread. apply filter_In in Hf. tauto. }
  assert (Himg : length images = length (filter isImageFile files))
    by (apply urls_length, Hreadable).
  subst p'. unfold handleFileSelect.
  destruct files as [|f0 [|f1 files]]; [simpl in Hlen; lia | simpl in Hlen; lia |].
  set (all := f0 :: f1 :: files) in *.
  destruct (Nat.ltb_spec 0 (length (filter isImageFile all))) as [_ | H0].
  - unfold processMultipleImages. rewrite (readAll_urls _ Hreadable). fold images. simpl.
    repeat split; try assumption.
    destruct images; [| discriminate].
    destruct (filter isImageFile all); [congruence | discriminate Himg].
  - destruct (filter isImageFile all); [congruence | simpl in H0; lia].
Qed.

Lemma multi_file_selection_example :
  let p' := handleFileSelect [Upload.photo "a"; Upload.notes; Upload.clip; Upload.photo "b"]
              Upload.analysed in
  State.uploadedImages (Panel.core p') = ["a"; "b"] /\
  Panel.uploadedImage p' = Some "a" /\
  State.combinedResults (Panel.core Upload.analysed) <> None /\
  State.combinedResults (Panel.core p') = None.
Proof.
  destruct (multi_file_selection_keeps_the_images
              [Upload.photo "a"; Upload.notes; Upload.clip; Upload.photo "b"] Upload.analysed)
    as (Himg & _ & _ & Hfirst & _ & _ & _ & _ & _ & Hrep).
  - simpl. lia.
  - repeat constructor; discriminate.
  - discriminate.
  - split; [exact Himg | split; [exact Hfirst | split; [discriminate | exact Hrep]]].
Defined.

Lemma process_invalidates (p p' : Panel.t) :
  State.results (Panel.core p') = None ->
  State.combinedResults (Panel.core p') = None ->
  State.videoFrames (Panel.core p') = [] ->
  (State.uploadedImages (Panel.core p') = [] \/ Panel.uploadedVideo p' = None) ->
  p' = p \/
  (State.results (Panel.core p') = None /\
   State.combinedResults (Panel.core p') = None /\
   State.videoFrames (Panel.core p') = [] /\
   (State.uploadedImages (Panel.core p') = [] \/ Panel.uploadedVideo p' = None)).
Proof.
  intros. right. repeat split; assumption.
Qed.

(** X20.  A selection of files either leaves the panel exactly as it was
    or invalidates what was analysed before: the single result, the combined
    report and the extracted frames are gone, and the panel does not hold
    both a batch of images and a video.  It leaves the panel as it was
    whenever nothing in the selection qualifies.  A drop does the same after
    ending the drag-over state. *)
Theorem selection_invalidates_or_ignores (files : list File.t) (p : Panel.t) :
  let p' := handleFileSelect files p in
  (p' = p \/
   (State.results (Panel.core p') = None /\
    State.combinedResults (Panel.core p') = None /\
    State.videoFrames (Panel.core p') = [] /\
    (State.uploadedImages (Panel.core p') = [] \/ Panel.uploadedVideo p' = None))) /\
  (qualifies files = false -> p' = p) /\
  handleDrop files p = handleFileSelect files (setIsDragOver false p).
Proof.
  cbv zeta. split; [| split; [| reflexivity]].
  - unfold handleFileSelect. destruct files as [|f0 [|f1 files]].
    + now left.
    + destruct (isImageFile f0).
      * unfold processImageFile. destruct (File.dataUrl f0); [| now left].
        apply process_invalidates; simpl; auto.
      * destruct (isVideoFile f0); [| now left].
        unfold processVideoFile. destruct (File.dataUrl f0); [| now left].
        apply process_invalidates; simpl; auto.
    + destruct (0 <? length (filter isImageFile (f0 :: f1 :: files)))%nat; [| now left].
      unfold processMultipleImages.
      destruct (readAll (filter isImageFile (f0 :: f1 :: files))); [| now left].
      apply process_invalidates; simpl; auto.
  - unfold handleFileSelect, qualifies. destruct files as [|f0 [|f1 files]].
    + reflexivity.
    + intros H. apply orb_false_iff in H. destruct H as [-> ->]. reflexivity.
    + intros H.
      assert (Hnil : filter isImageFile (f0 :: f1 :: files) = []).
      { destruct (filter isImageFile (f0 :: f1 :: files)) as [|f fs] eqn:E; [reflexivity |].
        assert (Hin : In f (filter isImageFile (f0 :: f1 :: files))) by (rewrite E; now left).
        apply filter_In in Hin. destruct Hin as [Hin Hf].
        assert (existsb isImageFile (f0 :: f1 :: files) = true)
          by (apply existsb_exists; now exists f).
        congruence. }
      rewrite Hnil. reflexivity.
Qed.

Lemma selection_ignored_example :
  qualifies [Upload.notes; Upload.clip] = false /\
  handleFileSelect [Upload.notes; Upload.clip] Upload.analysed = Upload.analysed.
Proof.
  split; [reflexivity |].
  exact (proj1 (proj2 (selection_invalidates_or_ignores [Upload.notes; Upload.clip]
                         Upload.analysed)) eq_refl).
Defined.

(** ** Single-image analysis *)

Lemma analyzeImage_requests (invoke : string -> InvokeOutcome) (p : Panel.t) (img : string) :
  Panel.uploadedImage p = Some img ->
  JS.truthy img = true ->
  State.requests (Panel.core (analyzeImage invoke p)) = State.requests (Panel.core p) ++ [img].
Proof.
  intros Himg Htruthy. unfold analyzeImage. rewrite Himg, Htruthy. simpl negb. cbv iota.
  destruct (invoke img) as [thrown | [[e | data] |] [err |]]; reflexivity.
Qed.

(** X21.  A single analysis sends one request with the image on show and
    ends with the in-flight flag released.  When the call returns an analysis
    result, that result is stored; in every other case the result stored
    before stays, and one destructive notice is shown.  The combined report is
    never touched. *)
Theorem single_analysis_keeps_result_on_failure
    (invoke : string -> InvokeOutcome) (p : Panel.t) (img : string) :
  Panel.uploadedImage p = Some img ->
  JS.truthy img = true ->
  let p' := analyzeImage invoke p in
  Panel.isAnalyzing p' = false /\
  State.requests (Panel.core p') = State.requests (Panel.core p) ++ [img] /\
  State.combinedResults (Panel.core p') = State.combinedResults (Panel.core p) /\
  match usable (invoke img) with
  | Some data =>
      State.results (Panel.core p') = Some data /\
      exists notice,
        State.toasts (Panel.core p') = State.toasts (Panel.core p) ++ [notice] /\
        Toast.title notice = "Analysis Complete" /\ Toast.variant notice = None
  | None =>
      State.results (Panel.core p') = State.results (Panel.core p) /\
      exists notice,
        State.toasts (Panel.core p') = State.toasts (Panel.core p) ++ [notice] /\
        Toast.title notice = "Analysis Failed" /\ Toast.variant notice = Some "destructive"
  end.
Proof.
  intros Himg Htruthy. cbv zeta. unfold analyzeImage. rewrite Himg, Htruthy. simpl negb. cbv iota.
  destruct (invoke img) as [thrown | [[e | data] |] [err |]]; simpl;
    repeat split; eexists; repeat split.
Qed.

Lemma single_analysis_example :
  let shown := setUploadedImage (Some "img0") Upload.empty in
  let first := analyzeImage Upload.singleClient shown in
  let second := analyzeImage Upload.failingSingleClient first in
  State.results (Panel.core first) = Some Scenario.minorScratch /\
  State.results (Panel.core second) = Some Scenario.minorScratch /\
  length (State.requests (Panel.core second)) = 2%nat.
Proof.
  cbv zeta.
  destruct (single_analysis_keeps_result_on_failure Upload.failingSingleClient
              (analyzeImage Upload.singleClient (setUploadedImage (Some "img0") Upload.empty))
              "img0" eq_refl eq_refl)
    as (_ & Hreq & _ & Hres & _).
  split; [reflexivity | split; [exact Hres |]].
  rewrite Hreq. reflexivity.
Defined.

(** X22.  Choosing an image of the batch and analysing it submits that
    very image; choosing a position outside the batch leaves nothing on show,
    and an analysis then sends no request.  Either way the choice clears the
    stored result and report. *)
Theorem chosen_image_is_the_one_analysed
    (invoke : string -> InvokeOutcome) (index : Z) (p : Panel.t) :
  let chosen := selectImage index p in
  let p' := analyzeImage invoke chosen in
  State.results (Panel.core chosen) = None /\
  State.combinedResults (Panel.core chosen) = None /\
  (forall img,
      0 <= index ->
      nth_error (State.uploadedImages (Panel.core p)) (Z.to_nat index) = Some img ->
      JS.truthy img = true ->
      State.requests (Panel.core p') = State.requests (Panel.core p) ++ [img]) /\
  (index < 0 \/ Z.of_nat (length (State.uploadedImages (Panel.core p))) <= index ->
   Panel.uploadedImage chosen = None /\ p' = chosen).
Proof.
  cbv zeta. split; [reflexivity | split; [reflexivity | split]].
  - intros img H0 Hnth Himg.
    assert (Hshown : Panel.uploadedImage (selectImage index p) = Some img).
    { unfold selectImage, at_index; simpl. destruct (Z.ltb_spec index 0); [lia | exact Hnth]. }
    rewrite (analyzeImage_requests invoke (selectImage index p) img Hshown Himg).
    reflexivity.
  - intros Hout.
    assert (Hnone : Panel.uploadedImage (selectImage index p) = None).
    { unfold selectImage, at_index; simpl. destruct (Z.ltb_spec index 0); [reflexivity |].
      apply nth_error_None. lia. }
    split; [exact Hnone |]. unfold analyzeImage. now rewrite Hnone.
Qed.

Lemma chosen_image_example :
  let p := handleFileSelect [Upload.photo "a"; Upload.photo "b"] Upload.empty in
  State.requests (Panel.core (analyzeImage Upload.singleClient (selectImage 1 p))) = ["b"] /\
  State.requests (Panel.core (analyzeImage Upload.singleClient (selectImage 2 p))) = [].
Proof.
  cbv zeta.
  destruct (chosen_image_is_the_one_analysed Upload.singleClient 1
              (handleFileSelect [Upload.photo "a"; Upload.photo "b"] Upload.empty))
    as (_ & _ & Hin & _).
  destruct (chosen_image_is_the_one_analysed Upload.singleClient 2
              (handleFileSelect [Upload.photo "a"; Upload.photo "b"] Upload.empty))
    as (_ & _ & _ & Hout).
  split.
  - exact (Hin "b" ltac:(lia) eq_refl eq_refl).
  - destruct Hout as [_ ->]; [right; simpl; lia | reflexivity].
Defined.

(** X23.  After [clearMedia] no handler has anything to work on: a single
    analysis, either batch run and a frame extraction all leave the cleared
    panel exactly as it is, and so send no request. *)
Theorem nothing_runs_on_a_cleared_panel
    (single : string -> InvokeOutcome) (invoke : Client) (v : Video.t) (p : Panel.t) :
  let cleared := clearMedia p in
  analyzeImage single cleared = cleared /\
  onCore (analyzeAllImages invoke) cleared = cleared /\
  onCore (analyzeAllFrames invoke) cleared = cleared /\
  extractFramesFromVideo v cleared = cleared /\
  State.results (Panel.core cleared) = None /\
  State.combinedResults (Panel.core cleared) = None.
Proof.
  cbv zeta. repeat split.
Qed.

(** ** Frame extraction *)

Lemma frameCount_bounds (d : Q) : (0 < d)%Q -> 1 <= frameCount d <= 6.
Proof.
  intros Hd. unfold frameCount.
  assert (Hc : (0 < inject_Z (Qceiling d))%Q).
  { eapply Qlt_le_trans; [exact Hd | apply Qle_ceiling]. }
  change 0%Q with (inject_Z 0) in Hc. rewrite <- Zlt_Qlt in Hc. lia.
Qed.

(** X24.  For a video of positive duration between one and six frames
    are sampled; every sample time lies strictly inside the video, and the
    sample times increase with the frame number.  (Times are taken here in
    exact arithmetic; the three bounds hold with a margin of half an interval
    or more, far beyond the rounding of the source's doubles.) *)
Theorem sample_times_lie_inside_the_video (d : Q) (i : nat) :
  (0 < d)%Q ->
  Z.of_nat i < frameCount d ->
  1 <= frameCount d <= 6 /\
  (0 < sampleTime d i)%Q /\
  (sampleTime d i < d)%Q /\
  (sampleTime d i < sampleTime d (S i))%Q.
Proof.
  intros Hd Hi. pose proof (frameCount_bounds d Hd) as Hn.
  split; [exact Hn |].
  unfold sampleTime, sampleInterval.
  set (n := inject_Z (frameCount d)).
  assert (Hn0 : (0 < n)%Q).
  { unfold n. change 0%Q with (inject_Z 0). rewrite <- Zlt_Qlt. lia. }
  assert (Hin : (inject_Z (Z.of_nat i) + 1 <= n)%Q).
  { unfold n. change 1%Q with (inject_Z 1). rewrite <- inject_Z_plus, <- Zle_Qle. lia. }
  assert (Hi0 : (0 <= inject_Z (Z.of_nat i))%Q).
  { change 0%Q with (inject_Z 0). rewrite <- Zle_Qle. lia. }
  assert (Hsucc : (inject_Z (Z.of_nat (S i)) == inject_Z (Z.of_nat i) + 1)%Q).
  { rewrite Nat2Z.inj_succ. unfold Z.succ. rewrite inject_Z_plus. reflexivity. }
  set (k := inject_Z (Z.of_nat i)) in *.
  assert (Hpos : (0 < d / n)%Q) by (apply Qlt_shift_div_l; lra).
  assert (Hd_eq : (d == d / n * n)%Q) by (field; lra).
  set (w := (d / n)%Q) in *.
  assert (Hkw : (0 <= k * w)%Q) by (apply Qmult_le_0_compat; lra).
  assert (Hnw : ((k + 1) * w <= n * w)%Q) by (apply Qmult_le_compat_r; lra).
  assert (Hhalf : (w / 2 == w * (1 # 2))%Q) by field.
  assert (E1 : ((k + 1) * w == k * w + w)%Q) by ring.
  assert (E2 : (n * w == w * n)%Q) by ring.
  rewrite E1, E2 in Hnw.
  split; [| split].
  - rewrite Hhalf. set (kw := (k * w)%Q) in *. lra.
  - rewrite Hhalf. set (kw := (k * w)%Q) in *. set (wn := (w * n)%Q) in *. lra.
  - rewrite Hsucc, E1. set (kw := (k * w)%Q) in *. lra.
Qed.

Lemma sample_times_example :
  frameCount 10 = 6 /\
  (0 < sampleTime 10 5)%Q /\
  (sampleTime 10 5 < 10)%Q.
Proof.
  destruct (sample_times_lie_inside_the_video 10 5) as (_ & Hpos & Hlt & _);
    [reflexivity | reflexivity |].
  split; [reflexivity | split; [exact Hpos | exact Hlt]].
Defined.

Lemma grabFrames_normal (v : Video.t) (numbers : list nat) (frames frames' : list string) :
  grabFrames v numbers frames = Normal frames' ->
  exists grabbed,
    frames' = frames ++ grabbed /\
    length grabbed = length numbers /\
    Forall2 (fun i frame => Video.grab v (sampleTime (Video.duration v) i) = Normal frame)
            numbers grabbed.
Proof.
  revert frames. induction numbers as [|i rest IH]; intros frames; simpl.
  - intros [= <-]. exists []. rewrite app_nil_r. repeat split. constructor.
  - destruct (Video.grab v (sampleTime (Video.duration v) i)) as [frame | thrown] eqn:E;
      [| discriminate].
    intros H. destruct (IH _ H) as (grabbed & -> & Hlen & Hall).
    exists (frame :: grabbed). rewrite <- app_assoc. simpl.
    repeat split; [now rewrite Hlen | constructor; assumption].
Qed.

(** X25.  A frame extraction is all or nothing.  Either the frames and the
    image on show are what they were before, or the panel holds a complete
    set: as many frames as the duration calls for, six at most, each one the
    frame grabbed at its sample time, the first of them on show.  In both
    cases the extraction flag is down again once the extraction has started. *)
Theorem extraction_is_all_or_nothing (v : Video.t) (p : Panel.t) :
  let p' := extractFramesFromVideo v p in
  let frames := State.videoFrames (Panel.core p') in
  ((State.videoFrames (Panel.core p') = State.videoFrames (Panel.core p) /\
    Panel.uploadedImage p' = Panel.uploadedImage p) \/
   (length frames = Z.to_nat (frameCount (Video.duration v)) /\
    (length frames <= 6)%nat /\
    Forall2 (fun i frame => Video.grab v (sampleTime (Video.duration v) i) = Normal frame)
            (seq 0 (length frames)) frames /\
    Panel.uploadedImage p' = nth_error frames 0 /\
    Panel.selectedFrameIndex p' = 0)) /\
  (p' = p \/ Panel.isExtractingFrames p' = false) /\
  State.results (Panel.core p') = State.results (Panel.core p) /\
  State.combinedResults (Panel.core p') = State.combinedResults (Panel.core p).
Proof.
  cbv zeta. unfold extractFramesFromVideo.
  destruct (absent (Panel.uploadedVideo p) || negb (Video.mounted v)).
  { split; [left; split; reflexivity | split; [now left | split; reflexivity]]. }
  destruct (negb (Video.context v)).
  { split; [left; split; reflexivity | split; [now right | split; reflexivity]]. }
  destruct (grabFrames v (seq 0 (Z.to_nat (frameCount (Video.duration v)))) [])
    as [frames | thrown] eqn:E.
  - destruct (grabFrames_normal _ _ _ _ E) as (grabbed & -> & Hlen & Hall).
    rewrite length_seq in Hlen. simpl in *.
    split; [right | split; [now right | split; reflexivity]].
    rewrite Hlen. repeat split; [| exact Hall].
    unfold frameCount. lia.
  - split; [left; split; reflexivity | split; [now right | split; reflexivity]].
Qed.

(** A ten-second clip yields six frames; when the third seek throws, the
    panel keeps none of the two frames grabbed before it. *)
Lemma extraction_example :
  let start := handleFileSelect [Upload.clip] Upload.empty in
  length (State.videoFrames (Panel.core (extractFramesFromVideo Upload.player start))) = 6%nat /\
  State.videoFrames (Panel.core (extractFramesFromVideo Upload.brokenPlayer start)) = [] /\
  Panel.isExtractingFrames (extractFramesFromVideo Upload.brokenPlayer start) = false.
Proof.
  cbv zeta.
  destruct (extraction_is_all_or_nothing Upload.brokenPlayer
              (handleFileSelect [Upload.clip] Upload.empty))
    as (_ & [Hsame | Hflag] & _).
  - vm_compute in Hsame. discriminate Hsame.
  - split; [reflexivity | split; [reflexivity | exact Hflag]].
Defined.
